(** * favicons: the generation pipeline of [favicons/_generate.py] and
    [favicons/_util.py], embedded as state-passing functions over a small
    filesystem model.

    Conventions of the embedding:
    - a [pathlib.Path] is an absolute, normalised path, kept as the list of
      its components INNERMOST FIRST, so that [Path.name] is the head and
      [Path.parent] the tail (the root is [[]] and is its own parent);
    - the filesystem is a finite map from paths to nodes; the root is
      always a directory;
    - a Python exception is a value of [exn]; a call that may raise returns
      a [result]; a method is a function from the world (the [Favicons]
      object and the disk) to a result and the world it leaves behind, also
      when it raises: Python does not roll back mutations;
    - strings are ASCII strings. *)

From stdpp Require Import gmap strings list fin_maps.
From Stdlib Require Import ZArith Lia Ascii String.

Open Scope string_scope.
Open Scope Z_scope.

(** ** Strings and paths *)

Definition bytes := list Byte.byte.

Definition path := list string.

(** [str.lower] on one ASCII character. *)
Definition lower_ascii (c : ascii) : ascii :=
  let n := nat_of_ascii c in
  if ((65 <=? n) && (n <=? 90))%nat then ascii_of_nat (n + 32) else c.

(** [str.lower]. *)
Fixpoint lower (s : string) : string :=
  match s with
  | EmptyString => EmptyString
  | String c s' => String (lower_ascii c) (lower s')
  end.

(** [str.rfind(c)], counting from offset [i]; [None] stands for -1. *)
Fixpoint rfind_from (c : ascii) (s : string) (i : nat) : option nat :=
  match s with
  | EmptyString => None
  | String a s' =>
      match rfind_from c s' (S i) with
      | Some j => Some j
      | None => if Ascii.eqb a c then Some i else None
      end
  end.

Definition rfind (c : ascii) (s : string) : option nat := rfind_from c s 0.

(** [PurePath.name]: the final component, empty for the root. *)
Definition name (p : path) : string :=
  match p with
  | [] => ""
  | n :: _ => n
  end.

(** [PurePath.parent]. *)
Definition parent (p : path) : path :=
  match p with
  | [] => []
  | _ :: d => d
  end.

(** [PurePath.suffix]:
    [i = name.rfind('.'); name[i:] if 0 < i < len(name) - 1 else '']. *)
Definition suffix (p : path) : string :=
  let n := name p in
  match rfind "."%char n with
  | Some i =>
      if ((0 <? i) && (S i <? String.length n))%nat
      then String.substring i (String.length n - i) n
      else ""
  | None => ""
  end.

(** [dir / filename], for a file name of one component. *)
Definition path_join (dir : path) (file : string) : path := file :: dir.

(** Reading a path the usual way round: [mkpath ["out"; "a.png"]] is
    [/out/a.png]. *)
Definition mkpath (components : list string) : path := rev components.

(** ** Exceptions and results *)

Inductive exn : Type :=
| FaviconNotFoundError (p : path)
| FaviconNotSupportedError (p : path)
| FileNotFoundError
| FileExistsError
| NotADirectoryError
| IsADirectoryError
| AttributeError (attr : string)
| InvalidColorError
| LibraryError (what : string).

Inductive result (A : Type) : Type :=
| Ok (a : A)
| Raise (e : exn).

Arguments Ok {A} a.
Arguments Raise {A} e.

Definition is_ok {A} (r : result A) : bool :=
  match r with
  | Ok _ => true
  | Raise _ => false
  end.

(** ** The filesystem *)

Inductive node : Type :=
| Dir
| File (content : bytes).

Abbreviation FS := (gmap (list string) node).

(** What is at [p]; the root is a directory whatever the map says. *)
Definition stat (fs : FS) (p : path) : option node :=
  match p with
  | [] => Some Dir
  | _ => fs !! p
  end.

(** [Path.exists]. *)
Definition exists_ (fs : FS) (p : path) : bool :=
  match stat fs p with
  | Some _ => true
  | None => false
  end.

(** [Path.is_dir]: false for a path that does not exist. *)
Definition is_dir (fs : FS) (p : path) : bool :=
  match stat fs p with
  | Some Dir => true
  | _ => false
  end.

(** [Path.is_file]. *)
Definition is_file (fs : FS) (p : path) : bool :=
  match stat fs p with
  | Some (File _) => true
  | _ => false
  end.

(** [os.mkdir]. *)
Definition os_mkdir (p : path) (fs : FS) : result unit * FS :=
  match stat fs p with
  | Some _ => (Raise FileExistsError, fs)
  | None =>
      match stat fs (parent p) with
      | None => (Raise FileNotFoundError, fs)
      | Some (File _) => (Raise NotADirectoryError, fs)
      | Some Dir => (Ok tt, <[p := Dir]> fs)
      end
  end.

(** The handler [except OSError: if not exist_ok or not self.is_dir(): raise]
    of [Path.mkdir]. *)
Definition mkdir_oserror (exist_ok : bool) (p : path) (e : exn) (fs : FS)
  : result unit * FS :=
  if exist_ok && is_dir fs p then (Ok tt, fs) else (Raise e, fs).

(** [Path.mkdir(parents=False, exist_ok=exist_ok)]. *)
Definition mkdir (exist_ok : bool) (p : path) (fs : FS) : result unit * FS :=
  match os_mkdir p fs with
  | (Ok _, fs') => (Ok tt, fs')
  | (Raise e, _) => mkdir_oserror exist_ok p e fs
  end.

(** [Path.mkdir(parents=True, exist_ok=exist_ok)]: on [FileNotFoundError]
    the parent is made with [parents=True, exist_ok=True] and the directory
    itself is tried again without [parents]; the root re-raises. *)
Fixpoint mkdir_parents (exist_ok : bool) (p : path) (fs : FS)
  : result unit * FS :=
  match os_mkdir p fs with
  | (Ok _, fs') => (Ok tt, fs')
  | (Raise FileNotFoundError, _) =>
      match p with
      | [] => (Raise FileNotFoundError, fs)
      | _ :: d =>
          match mkdir_parents true d fs with
          | (Ok _, fs1) => mkdir exist_ok p fs1
          | (Raise e, fs1) => (Raise e, fs1)
          end
      end
  | (Raise e, _) => mkdir_oserror exist_ok p e fs
  end.

(** [Path.read_bytes]. *)
Definition read_bytes (p : path) (fs : FS) : result bytes :=
  match stat fs p with
  | None => Raise FileNotFoundError
  | Some Dir => Raise IsADirectoryError
  | Some (File b) => Ok b
  end.

(** [Path.write_bytes]: [open(p, 'wb')] creates or truncates the file. *)
Definition write_bytes (p : path) (b : bytes) (fs : FS) : result unit * FS :=
  match stat fs p with
  | Some Dir => (Raise IsADirectoryError, fs)
  | Some (File _) => (Ok tt, <[p := File b]> fs)
  | None =>
      match stat fs (parent p) with
      | None => (Raise FileNotFoundError, fs)
      | Some (File _) => (Raise NotADirectoryError, fs)
      | Some Dir => (Ok tt, <[p := File b]> fs)
      end
  end.

(** [Path.unlink]. *)
Definition unlink (p : path) (fs : FS) : result unit * FS :=
  match stat fs p with
  | None => (Raise FileNotFoundError, fs)
  | Some Dir => (Raise IsADirectoryError, fs)
  | Some (File _) => (Ok tt, delete p fs)
  end.


(** ** What the pipeline takes from outside [_generate.py] and [_util.py]

    [favicons._types], [favicons._constants] and the third-party libraries
    are not part of the two modules embedded here.  Their types, constants
    and functions are the fields of [Env]; every definition below is
    parametric in them. *)

(** A loose color, as the constructor receives it: a string (hex or named)
    or a sequence of integers. *)
Inductive LooseColor : Type :=
| ColorStr (s : string)
| ColorSeq (channels : list Z).

(** An entry of [ICON_TYPES]: [generate_icon_types] keeps the entries that
    are a [Mapping] and builds a descriptor from their keywords. *)
Inductive icon_type (K : Type) : Type :=
| IconMapping (kw : K)
| IconOther.

Arguments IconMapping {K} kw.
Arguments IconOther {K}.

(** A piece of the [HTML_LINK] template handed to [str.format]: literal
    text or one of the three replacement fields the caller supplies. *)
Inductive segment : Type :=
| Lit (s : string)
| FieldRel
| FieldType
| FieldHref.

Class Env : Type := {
  (* favicons._types *)
  FaviconProperties : Type;
  Kwargs : Type;
  FaviconProperties_init : Kwargs -> FaviconProperties;
  fmt_str : FaviconProperties -> string;
  dimensions : FaviconProperties -> Z * Z;
  image_fmt : FaviconProperties -> string;
  rel : FaviconProperties -> string;
  Color : Type;
  Color_init : LooseColor -> result Color;
  colors : Color -> list Z;
  (* favicons._constants *)
  ICON_TYPES : list (icon_type Kwargs);
  SUPPORTED_FORMATS : list string;
  HTML_LINK : list segment;
  (* PIL *)
  Image : Type;
  PIL_open : bytes -> result Image;
  PIL_size : Image -> Z * Z;
  PIL_new : string -> Z * Z -> list Z -> result Image;
  PIL_convert : Image -> string -> result Image;
  PIL_alpha_composite : Image -> Image -> result Image;
  ImageOps_pad : Image -> Z * Z -> list Z -> result Image;
  PIL_encode : Image -> string -> result bytes;
  (* cairosvg *)
  svg2png : bytes -> result bytes;
  (* tempfile: the name [mkstemp] picks on a given disk *)
  mkstemp_name : FS -> string -> path
}.

(** ** ColorSpec *)

Module ColorSpec.

(** Modelled from the spec: the class [Color] of [favicons._types] is not
    among the sources.  Spec 4.1: the input is a hex string, a named color or
    a sequence of 3 to 4 integers in [0,255]; the output is the normalised
    channel tuple; malformed strings, out-of-range channels and sequences of
    the wrong arity fail with the invalid-color error.  Spec 3: the tuple has
    3 or 4 channels and is resolved to exactly 4 (alpha defaulted) before
    compositing, which is what [_generate_single] does with [colors]. *)

Record t : Type := { channels : list Z }.

Definition hex_digit (c : ascii) : option Z :=
  let n := nat_of_ascii c in
  if ((48 <=? n) && (n <=? 57))%nat then Some (Z.of_nat (n - 48))
  else if ((97 <=? n) && (n <=? 102))%nat then Some (Z.of_nat (n - 87))
  else if ((65 <=? n) && (n <=? 70))%nat then Some (Z.of_nat (n - 55))
  else None.

(** Pairs of hex digits, one channel each. *)
Fixpoint hex_channels (s : string) : option (list Z) :=
  match s with
  | EmptyString => Some []
  | String hi (String lo s') =>
      match hex_digit hi, hex_digit lo, hex_channels s' with
      | Some h, Some l, Some cs => Some (16 * h + l :: cs)
      | _, _, _ => None
      end
  | String _ EmptyString => None
  end.

Definition in_range (c : Z) : bool := (0 <=? c) && (c <=? 255).

Definition valid_arity (cs : list Z) : bool :=
  (List.length cs =? 3)%nat || (List.length cs =? 4)%nat.

Definition check (cs : list Z) : result t :=
  if valid_arity cs && forallb in_range cs
  then Ok {| channels := cs |}
  else Raise InvalidColorError.

(** [named] is the table of color names, which the spec does not list. *)
Definition parse (named : string -> option (list Z)) (c : LooseColor) : result t :=
  match c with
  | ColorSeq cs => check cs
  | ColorStr (String "#" digits) =>
      match hex_channels digits with
      | Some cs => check cs
      | None => Raise InvalidColorError
      end
  | ColorStr s =>
      match named s with
      | Some cs => check cs
      | None => Raise InvalidColorError
      end
  end.






End ColorSpec.

(** ** The pipeline object and its world *)

Section Embedding.

Context `{E : Env}.

(** What [self.generate] is bound to. *)
Inductive generate_binding : Type :=
| bound_sgenerate
| bound_agenerate.

(** The attributes of a [Favicons] instance.  [source] and
    [output_directory] exist only once [_validate] has assigned them. *)
Record Favicons : Type := mkFavicons {
  _validated : bool;
  _output_directory : path;
  _formats : list FaviconProperties;
  transparent : bool;
  base_url : string;
  background_color : Color;
  generate : generate_binding;
  completed : Z;
  _temp_source : option path;
  _source : path;
  source : option path;
  output_directory : option path
}.

Definition set_validated (v : bool) (s : Favicons) : Favicons :=
  mkFavicons v (_output_directory s) (_formats s) (transparent s) (base_url s)
    (background_color s) (generate s) (completed s) (_temp_source s)
    (_source s) (source s) (output_directory s).

Definition set_generate (g : generate_binding) (s : Favicons) : Favicons :=
  mkFavicons (_validated s) (_output_directory s) (_formats s) (transparent s)
    (base_url s) (background_color s) g (completed s) (_temp_source s)
    (_source s) (source s) (output_directory s).

Definition set_completed (c : Z) (s : Favicons) : Favicons :=
  mkFavicons (_validated s) (_output_directory s) (_formats s) (transparent s)
    (base_url s) (background_color s) (generate s) c (_temp_source s)
    (_source s) (source s) (output_directory s).

Definition set__source (p : path) (s : Favicons) : Favicons :=
  mkFavicons (_validated s) (_output_directory s) (_formats s) (transparent s)
    (base_url s) (background_color s) (generate s) (completed s)
    (_temp_source s) p (source s) (output_directory s).

Definition set_source (p : path) (s : Favicons) : Favicons :=
  mkFavicons (_validated s) (_output_directory s) (_formats s) (transparent s)
    (base_url s) (background_color s) (generate s) (completed s)
    (_temp_source s) (_source s) (Some p) (output_directory s).

Definition set_output_directory (p : path) (s : Favicons) : Favicons :=
  mkFavicons (_validated s) (_output_directory s) (_formats s) (transparent s)
    (base_url s) (background_color s) (generate s) (completed s)
    (_temp_source s) (_source s) (source s) (Some p).

(** The world a method runs in: the instance, the disk, and a ghost log of
    the descriptors [_generate_single] was entered with (the log is not
    program state; no method reads it). *)
Record World : Type := mkWorld {
  obj : Favicons;
  disk : FS;
  attempts : list FaviconProperties
}.

Definition M (A : Type) : Type := World -> result A * World.

Definition ret {A} (a : A) : M A := fun w => (Ok a, w).

Definition raise {A} (e : exn) : M A := fun w => (Raise e, w).

Definition bind {A B} (m : M A) (k : A -> M B) : M B :=
  fun w =>
    match m w with
    | (Ok a, w') => k a w'
    | (Raise e, w') => (Raise e, w')
    end.

(** A pure call that may raise. *)
Definition lift {A} (r : result A) : M A := fun w => (r, w).

Definition get_self : M Favicons := fun w => (Ok (obj w), w).

Definition modify_self (f : Favicons -> Favicons) : M unit :=
  fun w => (Ok tt, mkWorld (f (obj w)) (disk w) (attempts w)).

(** A filesystem call. *)
Definition on_disk {A} (f : FS -> result A * FS) : M A :=
  fun w =>
    let '(r, fs') := f (disk w) in
    (r, mkWorld (obj w) fs' (attempts w)).

Definition log_attempt (fp : FaviconProperties) : M unit :=
  fun w => (Ok tt, mkWorld (obj w) (disk w) (attempts w ++ [fp])).

(** Reading an attribute that may not have been assigned yet. *)
Definition attr {A} (attr_name : string) (v : option A) : M A :=
  match v with
  | Some a => ret a
  | None => raise (AttributeError attr_name)
  end.

(** [try: m except <caught>: pass]. *)
Definition try_pass (m : M unit) (caught : exn -> bool) : M unit :=
  fun w =>
    match m w with
    | (Raise e, w') => if caught e then (Ok tt, w') else (Raise e, w')
    | ok => ok
    end.

Definition is_FileNotFoundError (e : exn) : bool :=
  match e with
  | FileNotFoundError => true
  | _ => false
  end.

End Embedding.

Declare Scope pipeline_scope.
Delimit Scope pipeline_scope with pipeline.

Notation "x <- m ;; k" := (bind m (fun x => k))
  (at level 100, m at next level, right associativity) : pipeline_scope.
Notation "m ;; k" := (bind m (fun _ => k))
  (at level 100, right associativity) : pipeline_scope.

Open Scope pipeline_scope.

(** ** [favicons/_util.py] *)

Section Util.

Context `{E : Env}.

(** [validate_path(path, must_exist, create)].  The argument is already a
    [Path]; [Path(str)] does not raise on a [str]. *)
Definition validate_path (p : path) (must_exist create : bool) (fs : FS)
  : result path * FS :=
  let '(made, fs1) :=
    if create then
      if is_dir fs p && negb (exists_ fs p) then
        mkdir_parents false p fs
      else if negb (is_dir fs p) && negb (exists_ fs (parent p)) then
        mkdir_parents false (parent p) fs
      else (Ok tt, fs)
    else (Ok tt, fs) in
  match made with
  | Raise e => (Raise e, fs1)
  | Ok _ =>
      if must_exist && negb (exists_ fs1 p)
      then (Raise (FaviconNotFoundError p), fs1)
      else (Ok p, fs1)
  end.

(** [generate_icon_types()], collected. *)
Fixpoint generate_icon_types_from (types : list (icon_type Kwargs))
  : list FaviconProperties :=
  match types with
  | [] => []
  | IconMapping kw :: rest =>
      FaviconProperties_init kw :: generate_icon_types_from rest
  | IconOther :: rest => generate_icon_types_from rest
  end.

Definition generate_icon_types : list FaviconProperties :=
  generate_icon_types_from ICON_TYPES.

(** [tempfile.mkstemp(suffix=...)]: an empty file under the name the
    environment picks. *)
Definition mkstemp (sfx : string) (fs : FS) : result path * FS :=
  let p := mkstemp_name fs sfx in
  match write_bytes p [] fs with
  | (Ok _, fs') => (Ok p, fs')
  | (Raise e, fs') => (Raise e, fs')
  end.

(** [svg_to_png(svg_path)]. *)
Definition svg_to_png (svg_path : path) (fs : FS) : result path * FS :=
  match mkstemp ".png" fs with
  | (Raise e, fs1) => (Raise e, fs1)
  | (Ok png, fs1) =>
      match read_bytes svg_path fs1 with
      | Raise e => (Raise e, fs1)
      | Ok svg =>
          match svg2png svg with
          | Raise e => (Raise e, fs1)
          | Ok data =>
              match write_bytes png data fs1 with
              | (Raise e, fs2) => (Raise e, fs2)
              | (Ok _, fs2) => (Ok png, fs2)
              end
          end
      end
  end.

End Util.

(** ** [favicons/_generate.py] *)

Section Generate.

Context `{E : Env}.

(** [_validate]. *)
Definition _validate : M unit :=
  self <- get_self ;;
  src <- on_disk (validate_path (_source self) true false) ;;
  modify_self (set_source src) ;;
  self <- get_self ;;
  out <- on_disk (validate_path (_output_directory self) true true) ;;
  modify_self (set_output_directory out) ;;
  if bool_decide (lower (suffix src) ∈ SUPPORTED_FORMATS)
  then modify_self (set_validated true)
  else raise (FaviconNotSupportedError src).

(** [_close_temp_source]. *)
Definition _close_temp_source : M unit :=
  self <- get_self ;;
  match _temp_source self with
  | Some tmp => try_pass (on_disk (unlink tmp)) is_FileNotFoundError
  | None => ret tt
  end.

(** [_check_source_format]. *)
Definition _check_source_format : M unit :=
  self <- get_self ;;
  if String.eqb (suffix (_source self)) ".svg"
  then
    png <- on_disk (svg_to_png (_source self)) ;;
    modify_self (set__source png)
  else ret tt.

(** [__init__]: the attribute assignments in source order, then
    [_check_source_format].  A constructor that raises yields no instance,
    but what it did to the disk stays. *)
Definition __init__ (source_arg output_directory_arg : path)
  (background_color_arg : LooseColor) (transparent_arg : bool)
  (base_url_arg : string) (fs : FS) : result Favicons * FS :=
  match Color_init background_color_arg with
  | Raise e => (Raise e, fs)
  | Ok color =>
      let self :=
        mkFavicons false output_directory_arg generate_icon_types
          transparent_arg base_url_arg color bound_sgenerate 0 None
          source_arg None None in
      match _check_source_format (mkWorld self fs []) with
      | (Ok _, w) => (Ok (obj w), disk w)
      | (Raise e, w) => (Raise e, disk w)
      end
  end.

(** [__enter__]. *)
Definition __enter__ : M unit :=
  _validate ;;
  modify_self (set_generate bound_sgenerate).

(** [__exit__]. *)
Definition __exit__ : M unit := _close_temp_source.

(** [__aenter__]. *)
Definition __aenter__ : M unit :=
  _validate ;;
  modify_self (set_generate bound_agenerate).

(** [__aexit__]. *)
Definition __aexit__ : M unit := _close_temp_source.

(** [((255,),(0,))[self.transparent]]: a tuple indexed by a bool. *)
Definition alpha_channel (transparent_flag : bool) : list Z :=
  nth (Nat.b2n transparent_flag) [[255]; [0]] [].

(** [bg] of [_generate_single]. *)
Definition bg_of (self : Favicons) : list Z :=
  colors (background_color self) ++ alpha_channel (transparent self).

(** [Image.save(path, format)]: encode, then write the file.  An encoder
    that fails is taken to fail before the file is opened; no property below
    depends on what a failed [save] leaves at its path. *)
Definition PIL_save (img : Image) (p : path) (fmt : string) : M unit :=
  data <- lift (PIL_encode img fmt) ;;
  on_disk (write_bytes p data).

(** [PILImage.open(path)]: read the file, then decode. *)
Definition PIL_open_path (p : path) : M Image :=
  data <- on_disk (fun fs => (read_bytes p fs, fs)) ;;
  lift (PIL_open data).

(** [_generate_single]. *)
Definition _generate_single (format_properties : FaviconProperties) : M unit :=
  log_attempt format_properties ;;
  self <- get_self ;;
  src_path <- attr "source" (source self) ;;
  src <- PIL_open_path src_path ;;
  out_dir <- attr "output_directory" (output_directory self) ;;
  let output_file := path_join out_dir (fmt_str format_properties) in
  let bg := bg_of self in
  canvas <- lift (PIL_new "RGBA" (PIL_size src) bg) ;;
  rgba <- lift (PIL_convert src "RGBA") ;;
  src <- lift (PIL_alpha_composite canvas rgba) ;;
  src <- lift (ImageOps_pad src (dimensions format_properties) bg) ;;
  PIL_save src output_file (image_fmt format_properties) ;;
  modify_self (fun s => set_completed (completed s + 1) s).

(** [_agenerate_single]: a coroutine without a suspension point; running
    it is running [_generate_single]. *)
Definition _agenerate_single (format_properties : FaviconProperties) : M unit :=
  _generate_single format_properties.

(** [if not self._validated: self._validate()]. *)
Definition ensure_validated : M unit :=
  self <- get_self ;;
  if _validated self then ret tt else _validate.

(** [for fmt in formats: self._generate_single(fmt)]. *)
Fixpoint for_each (formats : list FaviconProperties) : M unit :=
  match formats with
  | [] => ret tt
  | fmt :: rest => _generate_single fmt ;; for_each rest
  end.

(** [sgenerate]. *)
Definition sgenerate : M unit :=
  ensure_validated ;;
  self <- get_self ;;
  for_each (_formats self).

(** *** The event loop under [asyncio.gather]

    [gather] wraps every coroutine in a task; creating a task schedules its
    first step with [call_soon].  A finished task schedules its done
    callbacks with [call_soon]; [gather]'s callback completes the outer
    future on the first exception, or when the last child has finished;
    completing the outer future schedules the wake-up of the task awaiting
    it.  The ready queue is first in, first out. *)

Inductive handle : Type :=
| TaskStep (coro : M unit)
| DoneCallback (fut : result unit)
| Wakeup.

Record Loop : Type := mkLoop {
  ready : list handle;
  nfuts : nat;
  nfinished : nat;
  outer : option (result unit);
  resumed : option (result unit);
  world : World
}.

(** One handle of the ready queue, already popped. *)
Definition run_handle (h : handle) (l : Loop) : Loop :=
  match h with
  | TaskStep coro =>
      let '(r, w') := coro (world l) in
      mkLoop (ready l ++ [DoneCallback r]) (nfuts l) (nfinished l) (outer l)
        (resumed l) w'
  | DoneCallback fut =>
      let n := S (nfinished l) in
      match outer l with
      | Some _ =>
          mkLoop (ready l) (nfuts l) n (outer l) (resumed l) (world l)
      | None =>
          match fut with
          | Raise e =>
              mkLoop (ready l ++ [Wakeup]) (nfuts l) n (Some (Raise e))
                (resumed l) (world l)
          | Ok _ =>
              if (n =? nfuts l)%nat
              then mkLoop (ready l ++ [Wakeup]) (nfuts l) n (Some (Ok tt))
                     (resumed l) (world l)
              else mkLoop (ready l) (nfuts l) n None (resumed l) (world l)
          end
      end
  | Wakeup =>
      mkLoop (ready l) (nfuts l) (nfinished l) (outer l) (outer l) (world l)
  end.

(** The loop runs ready handles until the awaiting task has been resumed.
    [None]: the fuel ran out, or nothing is left to run. *)
Fixpoint run_loop (fuel : nat) (l : Loop) : option (result unit * World) :=
  match resumed l with
  | Some r => Some (r, world l)
  | None =>
      match fuel with
      | O => None
      | S fuel' =>
          match ready l with
          | [] => None
          | h :: q =>
              run_loop fuel'
                (run_handle h
                   (mkLoop q (nfuts l) (nfinished l) (outer l) (resumed l)
                      (world l)))
          end
      end
  end.

(** [asyncio.gather] over the coroutines: without children the outer future is done
    at once. *)
Definition gather (coros : list (M unit)) (w : World) : Loop :=
  match coros with
  | [] => mkLoop [] 0 0 (Some (Ok tt)) None w
  | _ => mkLoop (map TaskStep coros) (List.length coros) 0 None None w
  end.

(** [await fut]: a done future does not suspend the caller. *)
Definition await (fuel : nat) (l : Loop) : option (result unit * World) :=
  match outer l with
  | Some r => Some (r, world l)
  | None => run_loop fuel l
  end.

(** [agenerate], with the fuel of the loop it is driven by. *)
Definition agenerate (fuel : nat) (w : World) : option (result unit * World) :=
  match ensure_validated w with
  | (Raise e, w1) => Some (Raise e, w1)
  | (Ok _, w1) =>
      await fuel (gather (map _agenerate_single (_formats (obj w1))) w1)
  end.

(** [HTML_LINK.format(rel=..., type=..., href=...)]. *)
Fixpoint format_link (template : list segment) (rel_ type_ href : string)
  : string :=
  match template with
  | [] => ""
  | Lit s :: rest => String.append s (format_link rest rel_ type_ href)
  | FieldRel :: rest => String.append rel_ (format_link rest rel_ type_ href)
  | FieldType :: rest => String.append type_ (format_link rest rel_ type_ href)
  | FieldHref :: rest => String.append href (format_link rest rel_ type_ href)
  end.

(** [html_gen], collected. *)
Definition html_gen (self : Favicons) : list string :=
  map (fun fmt =>
         format_link HTML_LINK (rel fmt)
           (String.append "image/" (image_fmt fmt))
           (String.append (base_url self) (fmt_str fmt)))
      (_formats self).

(** [html]. *)
Definition html (self : Favicons) : list string := html_gen self.

(** [filenames_gen], collected. *)
Definition filenames_gen (self : Favicons) (prefix : bool) : list string :=
  map (fun fmt =>
         let filename := fmt_str fmt in
         if prefix then String.append (base_url self) filename else filename)
      (_formats self).

(** [filenames]. *)
Definition filenames (self : Favicons) (prefix : bool) : list string :=
  filenames_gen self prefix.

End Generate.

(** ** The [with] statement and reference semantics *)

Section Reference.

Context `{E : Env}.

(** [with pipeline: body]: [__exit__] runs whether the body raised or not
    and returns [None], so the body's exception propagates; if [__enter__]
    raises, neither the body nor [__exit__] runs. *)
Definition with_sync (body : M unit) : M unit :=
  fun w =>
    match __enter__ w with
    | (Raise e, w1) => (Raise e, w1)
    | (Ok _, w1) =>
        let '(r, w2) := body w1 in
        match __exit__ w2 with
        | (Ok _, w3) => (r, w3)
        | (Raise e, w3) => (Raise e, w3)
        end
    end.

(** [k] calls of [sgenerate] in a row on the same instance. *)
Fixpoint repeat_sgenerate (k : nat) : M unit :=
  match k with
  | O => ret tt
  | S k' => sgenerate ;; repeat_sgenerate k'
  end.

(** Every coroutine run to its end, in order, whatever the earlier ones
    returned or raised. *)
Fixpoint run_all (coros : list (M unit)) (w : World)
  : list (result unit) * World :=
  match coros with
  | [] => ([], w)
  | c :: rest =>
      let '(r, w1) := c w in
      let '(rs, w2) := run_all rest w1 in
      (r :: rs, w2)
  end.

(** The first exception among the outcomes, if any. *)
Fixpoint first_failure (rs : list (result unit)) : result unit :=
  match rs with
  | [] => Ok tt
  | Raise e :: _ => Raise e
  | Ok _ :: rest => first_failure rest
  end.

(** All the exceptions among the outcomes. *)
Fixpoint failures (rs : list (result unit)) : list exn :=
  match rs with
  | [] => []
  | Raise e :: rest => e :: failures rest
  | Ok _ :: rest => failures rest
  end.

(** The exceptions a caller gets to see from one outcome. *)
Definition surfaced (r : result unit) : list exn :=
  match r with
  | Ok _ => []
  | Raise e => [e]
  end.

(** [fs'] has the files of [fs], with the same contents, and no others. *)
Definition same_files (fs fs' : FS) : Prop :=
  forall (p : path) (b : bytes),
    fs' !! p = Some (File b) <-> fs !! p = Some (File b).

(** [o'] is [o] but for the value of the [completed] counter. *)
Definition only_completed_changed (o o' : Favicons) : Prop :=
  o' = set_completed (completed o') o.

(** [o'] is [o] but for what [_validate] assigns: [source],
    [output_directory] and [_validated]. *)
Definition only_validation_changed (o o' : Favicons) : Prop :=
  o' = mkFavicons (_validated o') (_output_directory o) (_formats o)
         (transparent o) (base_url o) (background_color o) (generate o)
         (completed o) (_temp_source o) (_source o) (source o')
         (output_directory o').

(** The number of successful outcomes. *)
Fixpoint successes (rs : list (result unit)) : Z :=
  match rs with
  | [] => 0
  | Ok _ :: rest => 1 + successes rest
  | Raise _ :: rest => successes rest
  end.

(** [fs'] is [fs] with directories added at paths that were free. *)
Definition grows_by_dirs (fs fs' : FS) : Prop :=
  forall q : path,
    fs' !! q = fs !! q \/ (fs !! q = None /\ fs' !! q = Some Dir).

(** No file of [fs] has gone: every path that is a file still is one. *)
Definition keeps_files (fs fs' : FS) : Prop :=
  forall p : path, is_file fs p = true -> is_file fs' p = true.

(** The paths the renders of an instance write to:
    [output_directory / str(fmt)] for the descriptors of the catalog; none
    while [output_directory] is not assigned. *)
Definition output_paths (o : Favicons) : list path :=
  match output_directory o with
  | Some od => map (fun fmt => path_join od (fmt_str fmt)) (_formats o)
  | None => []
  end.

(** Away from [targets], [fs'] is [fs] with directories added at paths that
    were free. *)
Definition grows_by_dirs_outside (targets : list path) (fs fs' : FS) : Prop :=
  forall q : path,
    q ∉ targets ->
    fs' !! q = fs !! q \/ (fs !! q = None /\ fs' !! q = Some Dir).

(** [o'] reports the same link tags and the same file names as [o]. *)
Definition same_metadata (o o' : Favicons) : Prop :=
  html o' = html o
  /\ forall prefix : bool, filenames o' prefix = filenames o prefix.

End Reference.

(** ** A small concrete environment

    One instance of [Env], a disk and a few pipelines, for evaluating the
    embedding on concrete inputs.  The image operations are stand-ins (an
    image is its bytes); what is concrete is everything the two embedded
    modules do themselves. *)

Module Demo.

Record Icon : Type := {
  icon_name : string;
  icon_dims : Z * Z;
  icon_fmt : string;
  icon_rel : string
}.

Definition icon16 : Icon :=
  {| icon_name := "favicon-16x16.png"; icon_dims := (16, 16);
     icon_fmt := "png"; icon_rel := "icon" |}.

Definition icon32 : Icon :=
  {| icon_name := "favicon-32x32.png"; icon_dims := (32, 32);
     icon_fmt := "png"; icon_rel := "icon" |}.

Definition icon_ico : Icon :=
  {| icon_name := "favicon.ico"; icon_dims := (48, 48);
     icon_fmt := "ico"; icon_rel := "shortcut icon" |}.

Definition decode (b : bytes) : result bytes :=
  match b with
  | [] => Raise (LibraryError "UnidentifiedImageError")
  | _ => Ok b
  end.

Definition new_image (mode : string) (size : Z * Z) (color : list Z)
  : result bytes :=
  if (List.length color =? 4)%nat then Ok [] else Raise (LibraryError "TypeError").

Definition rasterize (svg : bytes) : result bytes :=
  match svg with
  | [] => Raise (LibraryError "ParseError")
  | _ => Ok (Byte.x89 :: svg)
  end.

Definition encode (img : bytes) (fmt : string) : result bytes :=
  if String.eqb fmt "png" || String.eqb fmt "ico"
  then Ok img
  else Raise (LibraryError "KeyError").

Definition icon_webx : Icon :=
  {| icon_name := "favicon.webx"; icon_dims := (64, 64);
     icon_fmt := "webx"; icon_rel := "icon" |}.

Definition env_with (icons : list (icon_type Icon)) : Env := {|
  FaviconProperties := Icon;
  Kwargs := Icon;
  FaviconProperties_init := fun kw => kw;
  fmt_str := icon_name;
  dimensions := icon_dims;
  image_fmt := icon_fmt;
  rel := icon_rel;
  Color := ColorSpec.t;
  Color_init := ColorSpec.parse (fun _ => None);
  colors := ColorSpec.channels;
  ICON_TYPES := icons;
  SUPPORTED_FORMATS := [".svg"; ".jpg"; ".jpeg"; ".png"; ".tif"; ".tiff"];
  HTML_LINK := [Lit "<link rel='"; FieldRel; Lit "' type='"; FieldType;
                Lit "' href='"; FieldHref; Lit "' />"];
  Image := bytes;
  PIL_open := decode;
  PIL_size := fun _ => (64, 64);
  PIL_new := new_image;
  PIL_convert := fun img _ => Ok img;
  PIL_alpha_composite := fun _ img => Ok img;
  ImageOps_pad := fun img _ _ => Ok img;
  PIL_encode := encode;
  svg2png := rasterize;
  mkstemp_name := fun _ sfx => mkpath ["tmp"; String.append "tmpfav" sfx]
|}.

(** The catalog used in most examples. *)
Definition env : Env :=
  env_with [IconMapping icon16; IconOther; IconMapping icon32;
            IconMapping icon_ico].

(** A catalog whose last descriptor names an encoding the encoder does not
    know. *)
Definition env_odd : Env :=
  env_with [IconMapping icon16; IconMapping icon32; IconMapping icon_webx].

Definition svg_data : bytes := [Byte.x3c; Byte.x73].
Definition png_data : bytes := [Byte.x89; Byte.x50].

(** [/srv] holds the sources, [/out] is an existing output directory,
    [/tmp] the temporary directory. *)
Definition disk0 : FS :=
  list_to_map
    [ (mkpath ["srv"], Dir);
      (mkpath ["srv"; "logo.svg"], File svg_data);
      (mkpath ["srv"; "LOGO.SVG"], File svg_data);
      (mkpath ["srv"; "logo.png"], File png_data);
      (mkpath ["srv"; "notes.txt"], File png_data);
      (mkpath ["tmp"], Dir);
      (mkpath ["out"], Dir) ].

(** As [disk0], but a directory sits where the second variant is to be
    written. *)
Definition disk_blocked : FS :=
  <[mkpath ["out"; "favicon-32x32.png"] := Dir]> disk0.

(** As [disk_blocked], with a second directory where the third variant is
    to be written. *)
Definition disk_blocked2 : FS :=
  <[mkpath ["out"; "favicon.ico"] := Dir]> disk_blocked.

(** [Favicons(source, output_directory)] with the defaults of the other
    arguments. *)
Definition construct `{E : Env} (source_arg output_directory_arg : path)
  (fs : FS) : result Favicons * FS :=
  __init__ source_arg output_directory_arg (ColorStr "#000000") true "/" fs.

(** A method sequence run on the instance a constructor returned. *)
Definition on_instance `{E : Env} {A : Type} (made : result Favicons * FS)
  (m : M A)
  : option (result A * World) :=
  match made with
  | (Ok self, fs) => Some (m (mkWorld self fs []))
  | (Raise _, _) => None
  end.

Definition black : ColorSpec.t := {| ColorSpec.channels := [0; 0; 0] |}.

(** The instance the constructor returns for a source that is not
    [.svg], output directory [/out] and the default arguments, in the
    environment with catalog [icons]. *)
Definition pipeline (icons : list (icon_type Icon)) (source_arg : path)
  : @Favicons (env_with icons) :=
  @mkFavicons (env_with icons) false (mkpath ["out"])
    (@generate_icon_types (env_with icons)) true "/" black bound_sgenerate 0
    None source_arg None None.

(** [Favicons("/srv/logo.png", "/out")]. *)
Definition pipeline_png (icons : list (icon_type Icon))
  : @Favicons (env_with icons) :=
  pipeline icons (mkpath ["srv"; "logo.png"]).

(** That instance on [fs], not yet validated. *)
Definition fresh_world (icons : list (icon_type Icon)) (fs : FS)
  : @World (env_with icons) :=
  @mkWorld (env_with icons) (pipeline_png icons) fs [].

(** The same after [__enter__]. *)
Definition entered_world (icons : list (icon_type Icon)) (fs : FS)
  : @World (env_with icons) :=
  snd (@__enter__ (env_with icons) (fresh_world icons fs)).

Definition catalog : list (icon_type Icon) :=
  [IconMapping icon16; IconOther; IconMapping icon32; IconMapping icon_ico].

Definition catalog_odd : list (icon_type Icon) :=
  [IconMapping icon16; IconMapping icon32; IconMapping icon_webx].

(** Not yet validated pipelines for other sources on the plain disk: a
    text file, a path that does not exist, an upper-case [.SVG]. *)
Definition world_txt : @World env :=
  @mkWorld env (pipeline catalog (mkpath ["srv"; "notes.txt"])) disk0 [].
Definition world_upper : @World env :=
  @mkWorld env (pipeline catalog (mkpath ["srv"; "LOGO.SVG"])) disk0 [].

(** [Favicons("/srv/logo.svg", "/out")]: the instance the constructor
    returns and the disk it leaves. *)
Definition pipeline_svg : @Favicons env :=
  pipeline catalog (mkpath ["tmp"; "tmpfav.png"]).
Definition disk_svg : FS :=
  snd (@construct env (mkpath ["srv"; "logo.svg"]) (mkpath ["out"]) disk0).

(** Validated pipelines: on the plain disk, on the disk with a blocked
    output path, and the odd catalog on that disk. *)
Definition world0 : @World env := entered_world catalog disk0.
Definition world_blocked : @World env := entered_world catalog disk_blocked.
Definition world_odd : @World env_odd := entered_world catalog_odd disk_blocked.

(** An instance whose [_temp_source] names the temporary PNG, on the disk
    that holds it, and on the plain disk, where it is absent. *)
Definition pipeline_temp : @Favicons env :=
  @mkFavicons env false (mkpath ["out"]) (@generate_icon_types env) true "/"
    black bound_sgenerate 0 (Some (mkpath ["tmp"; "tmpfav.png"]))
    (mkpath ["tmp"; "tmpfav.png"]) None None.
Definition world_temp : @World env := @mkWorld env pipeline_temp disk_svg [].
Definition world_temp_gone : @World env := @mkWorld env pipeline_temp disk0 [].

(** [Favicons("/srv/logo.png", "/site")] on the plain disk, which has no
    [/site]. *)
Definition world_no_out : @World env :=
  @mkWorld env
    (@mkFavicons env false (mkpath ["site"]) (@generate_icon_types env) true
       "/" black bound_sgenerate 0 None (mkpath ["srv"; "logo.png"]) None
       None)
    disk0 [].

End Demo.

(** * Properties *)

(** ** The filesystem *)

Section FilesystemFacts.

Lemma is_dir_exists (fs : FS) (p : path) :
  is_dir fs p = true -> exists_ fs p = true.
Proof.
  unfold is_dir, exists_. destruct (stat fs p) as [[|b]|]; congruence.
Qed.

(** The first test of the [create] branch of [validate_path] never holds:
    a path that is a directory exists. *)
Lemma is_dir_and_absent (fs : FS) (p : path) :
  is_dir fs p && negb (exists_ fs p) = false.
Proof.
  destruct (is_dir fs p) eqn:Hd; [|reflexivity].
  apply is_dir_exists in Hd. rewrite Hd. reflexivity.
Qed.

Lemma stat_cons (fs : FS) (x : string) (d : path) :
  stat fs (x :: d) = fs !! (x :: d).
Proof. reflexivity. Qed.

Lemma grows_refl (fs : FS) : grows_by_dirs fs fs.
Proof. intros q. left. reflexivity. Qed.

Lemma grows_trans (fs1 fs2 fs3 : FS) :
  grows_by_dirs fs1 fs2 -> grows_by_dirs fs2 fs3 -> grows_by_dirs fs1 fs3.
Proof.
  intros H12 H23 q.
  destruct (H12 q) as [E12|[N1 D2]], (H23 q) as [E23|[N2 D3]].
  - left. congruence.
  - right. split; congruence.
  - right. split; congruence.
  - congruence.
Qed.

Lemma os_mkdir_inv (p : path) (fs fs' : FS) (r : result unit) :
  os_mkdir p fs = (r, fs') ->
  (r = Ok tt /\ stat fs p = None /\ fs' = <[p := Dir]> fs)
  \/ (exists e, r = Raise e /\ fs' = fs).
Proof.
  unfold os_mkdir.
  destruct (stat fs p) as [n|] eqn:Hp.
  - intros [= <- <-]. right. eauto.
  - destruct (stat fs (parent p)) as [[|b]|]; intros [= <- <-]; eauto.
Qed.

Lemma os_mkdir_grows (p : path) (fs : FS) :
  grows_by_dirs fs (snd (os_mkdir p fs)).
Proof.
  destruct (os_mkdir p fs) as [r fs'] eqn:H. simpl.
  apply os_mkdir_inv in H as [(_ & Hnone & ->)|(e & _ & ->)].
  - intros q. destruct (decide (p = q)) as [<-|Hne].
    + right. rewrite lookup_insert_eq. split; [|reflexivity].
      destruct p; [discriminate|exact Hnone].
    + left. apply lookup_insert_ne, Hne.
  - apply grows_refl.
Qed.

Lemma mkdir_oserror_fs (ok : bool) (p : path) (e : exn) (fs : FS) :
  snd (mkdir_oserror ok p e fs) = fs.
Proof. unfold mkdir_oserror. destruct (ok && is_dir fs p); reflexivity. Qed.

Lemma mkdir_grows (ok : bool) (p : path) (fs : FS) :
  grows_by_dirs fs (snd (mkdir ok p fs)).
Proof.
  unfold mkdir. pose proof (os_mkdir_grows p fs) as H.
  destruct (os_mkdir p fs) as [[u|e] fs']; simpl in *.
  - exact H.
  - rewrite mkdir_oserror_fs. apply grows_refl.
Qed.

Lemma mkdir_parents_grows (p : path) :
  forall (ok : bool) (fs : FS), grows_by_dirs fs (snd (mkdir_parents ok p fs)).
Proof.
  induction p as [|x d IH]; intros ok fs; simpl.
  - rewrite mkdir_oserror_fs. apply grows_refl.
  - pose proof (os_mkdir_grows (x :: d) fs) as H.
    destruct (os_mkdir (x :: d) fs) as [[u|e] fs'] eqn:Hos; simpl in *.
    + exact H.
    + destruct e; try (rewrite mkdir_oserror_fs; apply grows_refl).
      specialize (IH true fs).
      destruct (mkdir_parents true d fs) as [[u|e] fs1]; simpl in *.
      * eapply grows_trans; [exact IH|apply mkdir_grows].
      * exact IH.
Qed.

(** [mkdir(parents=True)] on [d] leaves every path longer than [d] as it
    was: it only ever makes [d] and directories above it. *)
Lemma mkdir_parents_longer (d : path) :
  forall (ok : bool) (fs : FS) (q : path),
    (List.length d < List.length q)%nat ->
    snd (mkdir_parents ok d fs) !! q = fs !! q.
Proof.
  assert (Hos : forall (p q : path) (fs : FS),
             (List.length p < List.length q)%nat ->
             snd (os_mkdir p fs) !! q = fs !! q).
  { intros p q fs Hlen. destruct (os_mkdir p fs) as [r fs'] eqn:H. simpl.
    apply os_mkdir_inv in H as [(_ & _ & ->)|(e & _ & ->)]; [|reflexivity].
    apply lookup_insert_ne. intros ->. lia. }
  assert (Hmk : forall (ok : bool) (p q : path) (fs : FS),
             (List.length p < List.length q)%nat ->
             snd (mkdir ok p fs) !! q = fs !! q).
  { intros ok p q fs Hlen. unfold mkdir. specialize (Hos p q fs Hlen).
    destruct (os_mkdir p fs) as [[u|e] fs']; simpl in *; [exact Hos|].
    rewrite mkdir_oserror_fs. reflexivity. }
  induction d as [|x d IH]; intros ok fs q Hlen; simpl.
  - rewrite mkdir_oserror_fs. reflexivity.
  - specialize (Hos (x :: d) q fs Hlen).
    destruct (os_mkdir (x :: d) fs) as [[u|e] fs'] eqn:Hmkd; simpl in *.
    + exact Hos.
    + destruct e; try (rewrite mkdir_oserror_fs; reflexivity).
      assert (Hd : (List.length d < List.length q)%nat) by lia.
      specialize (IH true fs q Hd).
      destruct (mkdir_parents true d fs) as [[u|e] fs1]; simpl in *.
      * rewrite Hmk by exact Hlen. exact IH.
      * exact IH.
Qed.

Lemma mkdir_parents_exists_longer (d q : path) (ok : bool) (fs : FS) :
  (List.length d < List.length q)%nat ->
  exists_ (snd (mkdir_parents ok d fs)) q = exists_ fs q.
Proof.
  intros Hlen. unfold exists_, stat. destruct q as [|x q']; [reflexivity|].
  rewrite mkdir_parents_longer by exact Hlen. reflexivity.
Qed.

Lemma grows_same_files (fs fs' : FS) : grows_by_dirs fs fs' -> same_files fs fs'.
Proof.
  intros H p b. destruct (H p) as [->|[Hn Hd]]; [reflexivity|].
  rewrite Hn, Hd. split; discriminate.
Qed.

Lemma grows_keeps_files (fs fs' : FS) : grows_by_dirs fs fs' -> keeps_files fs fs'.
Proof.
  intros H p. unfold is_file, stat. destruct p as [|x d]; [trivial|].
  destruct (H (x :: d)) as [->|[Hn Hd]]; [trivial|].
  rewrite Hn. discriminate.
Qed.

Lemma keeps_files_refl (fs : FS) : keeps_files fs fs.
Proof. intros p H. exact H. Qed.

Lemma keeps_files_trans (fs1 fs2 fs3 : FS) :
  keeps_files fs1 fs2 -> keeps_files fs2 fs3 -> keeps_files fs1 fs3.
Proof. intros H12 H23 p H. apply H23, H12, H. Qed.

Lemma write_bytes_inv (p : path) (b : bytes) (fs fs' : FS) (r : result unit) :
  write_bytes p b fs = (r, fs') ->
  (r = Ok tt /\ fs' = <[p := File b]> fs /\ p <> [])
  \/ (exists e, r = Raise e /\ fs' = fs).
Proof.
  unfold write_bytes.
  destruct (stat fs p) as [[|c]|] eqn:Hp.
  - intros [= <- <-]. right. eauto.
  - intros [= <- <-]. left. repeat split. intros ->. discriminate.
  - destruct (stat fs (parent p)) as [[|c]|]; intros [= <- <-]; eauto.
    left. repeat split. intros ->. discriminate.
Qed.

Lemma write_bytes_keeps_files (p : path) (b : bytes) (fs : FS) :
  keeps_files fs (snd (write_bytes p b fs)).
Proof.
  destruct (write_bytes p b fs) as [r fs'] eqn:H. simpl.
  apply write_bytes_inv in H as [(_ & -> & Hp)|(e & _ & ->)].
  - intros q Hq. unfold is_file, stat in *. destruct q as [|x d]; [exact Hq|].
    destruct (decide (p = x :: d)) as [->|Hne].
    + rewrite lookup_insert_eq. reflexivity.
    + rewrite lookup_insert_ne by exact Hne. exact Hq.
  - apply keeps_files_refl.
Qed.

End FilesystemFacts.

(** ** [validate_path] *)

Section ValidatePathFacts.

Context `{E : Env}.

Lemma validate_path_grows (p : path) (must_exist create : bool) (fs : FS) :
  grows_by_dirs fs (snd (validate_path p must_exist create fs)).
Proof.
  unfold validate_path. rewrite is_dir_and_absent.
  destruct create.
  - destruct (negb (is_dir fs p) && negb (exists_ fs (parent p))).
    + pose proof (mkdir_parents_grows (parent p) false fs) as H.
      destruct (mkdir_parents false (parent p) fs) as [[u|e] fs1]; simpl in *.
      * destruct (must_exist && negb (exists_ fs1 p)); exact H.
      * exact H.
    + destruct (must_exist && negb (exists_ fs p)); apply grows_refl.
  - destruct (must_exist && negb (exists_ fs p)); apply grows_refl.
Qed.

(** Without [create] nothing is touched, and the outcome is decided by
    whether the path exists. *)
Lemma validate_path_plain (p : path) (fs : FS) :
  validate_path p true false fs =
  if exists_ fs p then (Ok p, fs) else (Raise (FaviconNotFoundError p), fs).
Proof. unfold validate_path. simpl. destruct (exists_ fs p); reflexivity. Qed.

(** Validating an existing directory is a no-op that returns the path. *)
Lemma validate_path_existing_dir (p : path) (must_exist create : bool) (fs : FS) :
  is_dir fs p = true -> validate_path p must_exist create fs = (Ok p, fs).
Proof.
  intros Hd. pose proof (is_dir_exists _ _ Hd) as He.
  unfold validate_path. rewrite is_dir_and_absent, Hd. simpl.
  destruct create; simpl; rewrite He; simpl; rewrite andb_false_r; reflexivity.
Qed.

(** The outcome of [validate_path] is the path itself or an exception. *)
Lemma validate_path_ok (p q : path) (must_exist create : bool) (fs fs' : FS) :
  validate_path p must_exist create fs = (Ok q, fs') -> q = p.
Proof.
  unfold validate_path.
  destruct (if create then _ else _) as [[u|e] fs1]; [|discriminate].
  destruct (must_exist && negb (exists_ fs1 p)); [discriminate|].
  intros [= -> _]. reflexivity.
Qed.

End ValidatePathFacts.

Section ValidatePathCreate.

(** C2 (the code departs from the claim here): [validate_path] with
    [create] set never creates the path it is given.  For a path that does
    not exist it raises, and the path still does not exist afterwards; when
    the parent is an existing directory the exception is
    [FaviconNotFoundError] and the disk is untouched.  What the [create]
    branch can make is the PARENT directory and the directories above it. *)
Theorem validate_path_create_leaves_target_absent (p : path) (fs : FS) :
  exists_ fs p = false ->
  exists (e : exn) (fs' : FS),
    validate_path p true true fs = (Raise e, fs') /\
    exists_ fs' p = false /\
    (is_dir fs (parent p) = true -> e = FaviconNotFoundError p /\ fs' = fs).
Proof.
  intros Hex. destruct p as [|x d]; [discriminate|].
  assert (Hd : is_dir fs (x :: d) = false).
  { destruct (is_dir fs (x :: d)) eqn:H; [|reflexivity].
    apply is_dir_exists in H. congruence. }
  unfold validate_path. rewrite is_dir_and_absent, Hd. simpl.
  destruct (exists_ fs d) eqn:Hpar; simpl.
  - rewrite Hex. simpl. exists (FaviconNotFoundError (x :: d)), fs. auto.
  - pose proof (mkdir_parents_exists_longer d (x :: d) false fs) as Hlong.
    destruct (mkdir_parents false d fs) as [[u|e] fs1]; cbn [snd] in Hlong.
    + assert (Hex1 : exists_ fs1 (x :: d) = false).
      { rewrite Hlong by (simpl; lia). exact Hex. }
      rewrite Hex1. simpl. exists (FaviconNotFoundError (x :: d)), fs1.
      split; [reflexivity|]. split; [exact Hex1|].
      intros Hdir. apply is_dir_exists in Hdir. congruence.
    + exists e, fs1. split; [reflexivity|]. split.
      * rewrite Hlong by (simpl; lia). exact Hex.
      * intros Hdir. apply is_dir_exists in Hdir. congruence.
Qed.

End ValidatePathCreate.

Lemma validate_path_create_leaves_target_absent_witness :
  exists (e : exn) (fs' : FS),
    validate_path (mkpath ["site"]) true true Demo.disk0 = (Raise e, fs') /\
    exists_ fs' (mkpath ["site"]) = false /\
    (is_dir Demo.disk0 (parent (mkpath ["site"])) = true ->
     e = FaviconNotFoundError (mkpath ["site"]) /\ fs' = Demo.disk0).
Proof.
  apply (validate_path_create_leaves_target_absent (mkpath ["site"]) Demo.disk0).
  vm_compute. reflexivity.
Defined.

(** [validate_path("/site", create=True)] on a disk without [/site]:
    [FaviconNotFoundError], nothing created.  With a missing parent as well,
    the parent is made and the path itself is not. *)
Example validate_path_create_missing_dir :
  fst (validate_path (mkpath ["site"]) true true Demo.disk0)
  = Raise (FaviconNotFoundError (mkpath ["site"]))
  /\ is_dir (snd (validate_path (mkpath ["site"]) true true Demo.disk0))
       (mkpath ["site"]) = false
  /\ fst (validate_path (mkpath ["site"; "icons"]) true true Demo.disk0)
     = Raise (FaviconNotFoundError (mkpath ["site"; "icons"]))
  /\ is_dir (snd (validate_path (mkpath ["site"; "icons"]) true true Demo.disk0))
       (mkpath ["site"]) = true
  /\ is_dir (snd (validate_path (mkpath ["site"; "icons"]) true true Demo.disk0))
       (mkpath ["site"; "icons"]) = false.
Proof. repeat split; vm_compute; reflexivity. Qed.

(** ** One render: [_generate_single] *)

Ltac unfold_m :=
  unfold bind, ret, raise, lift, get_self, modify_self, on_disk, attr,
    log_attempt, try_pass in *.

(** Split a conjunction into its parts, and nothing else. *)
Ltac splits := repeat match goal with |- _ /\ _ => split end.

(** Case analysis on a scrutinee that holds no other [match]. *)
Ltac break_leaf :=
  match goal with
  | |- context [match ?x with _ => _ end] =>
      lazymatch x with
      | context [match _ with _ => _ end] => fail
      | _ => destruct x eqn:?; simpl
      end
  end.

Section RenderFacts.

Context `{E : Env}.

Lemma alpha_channel_cases (t : bool) :
  alpha_channel t = [if t then 0 else 255].
Proof. destruct t; reflexivity. Qed.

Lemma bg_of_alpha (self : Favicons) :
  bg_of self =
  (colors (background_color self) ++ [if transparent self then 0 else 255])%list.
Proof. unfold bg_of. rewrite alpha_channel_cases. reflexivity. Qed.

(** What one render does to the instance, the log and the files: the
    counter goes up by one exactly when the render succeeds, nothing else of
    the instance changes, and no file disappears. *)
Lemma generate_single_frame (fp : FaviconProperties) (w : World) :
  let r := fst (_generate_single fp w) in
  let w' := snd (_generate_single fp w) in
  obj w' = (if is_ok r then set_completed (completed (obj w) + 1) (obj w)
            else obj w)
  /\ attempts w' = (attempts w ++ [fp])%list
  /\ keeps_files (disk w) (disk w').
Proof.
  unfold _generate_single, PIL_open_path, PIL_save. unfold_m.
  destruct w as [o fs log]. simpl.
  repeat break_leaf; repeat split; try apply keeps_files_refl.
  all: match goal with
       | H : write_bytes ?p ?b ?fs = (_, ?g) |- keeps_files ?fs ?g =>
           pose proof (write_bytes_keeps_files p b fs) as Hk;
           rewrite H in Hk; exact Hk
       end.
Qed.

(** C5: a render that succeeds has opened the source, filled a canvas of
    the source's size with the background color's channels followed by one
    alpha channel (0 when [transparent] is set, 255 when it is not),
    composited the RGBA source over that canvas, padded the composite to the
    descriptor's dimensions with the very same channel tuple, and written
    the encoded result to [output_directory / str(descriptor)]. *)
Theorem generate_single_background (fp : FaviconProperties) (w : World) :
  fst (_generate_single fp w) = Ok tt ->
  let bg :=
    (colors (background_color (obj w))
       ++ [if transparent (obj w) then 0 else 255])%list in
  exists (sp : path) (data : bytes) (src : Image) (od : path)
         (canvas rgba comp padded : Image) (out : bytes),
    source (obj w) = Some sp
    /\ read_bytes sp (disk w) = Ok data
    /\ PIL_open data = Ok src
    /\ output_directory (obj w) = Some od
    /\ PIL_new "RGBA" (PIL_size src) bg = Ok canvas
    /\ PIL_convert src "RGBA" = Ok rgba
    /\ PIL_alpha_composite canvas rgba = Ok comp
    /\ ImageOps_pad comp (dimensions fp) bg = Ok padded
    /\ PIL_encode padded (image_fmt fp) = Ok out
    /\ disk (snd (_generate_single fp w))
       = <[path_join od (fmt_str fp) := File out]> (disk w).
Proof.
  intros Hrun bg. subst bg. rewrite <- bg_of_alpha.
  revert Hrun.
  unfold _generate_single, PIL_open_path, PIL_save. unfold_m.
  destruct w as [o fs log]. simpl.
  repeat break_leaf; intros Hrun; try discriminate.
  match goal with
  | H : write_bytes _ _ _ = _ |- _ =>
      apply write_bytes_inv in H as [(_ & -> & _)|(e & He & _)];
        [|discriminate]
  end.
  simpl. eauto 20.
Qed.

End RenderFacts.

Lemma generate_single_background_witness :
  exists (sp : path) (data : bytes) (src : Image (Env := Demo.env)) (od : path)
         (canvas rgba comp padded : Image (Env := Demo.env)) (out : bytes),
    source (obj Demo.world0) = Some sp
    /\ read_bytes sp (disk Demo.world0) = Ok data
    /\ PIL_open data = Ok src
    /\ output_directory (obj Demo.world0) = Some od
    /\ PIL_new "RGBA" (PIL_size src)
         (colors (Env := Demo.env) (background_color (obj Demo.world0))
            ++ [if transparent (obj Demo.world0) then 0 else 255])%list
       = Ok canvas
    /\ PIL_convert src "RGBA" = Ok rgba
    /\ PIL_alpha_composite canvas rgba = Ok comp
    /\ ImageOps_pad comp (dimensions (Env := Demo.env) Demo.icon16)
         (colors (Env := Demo.env) (background_color (obj Demo.world0))
            ++ [if transparent (obj Demo.world0) then 0 else 255])%list
       = Ok padded
    /\ PIL_encode padded (image_fmt (Env := Demo.env) Demo.icon16) = Ok out
    /\ disk (snd (_generate_single (E := Demo.env) Demo.icon16 Demo.world0))
       = <[path_join od (fmt_str (Env := Demo.env) Demo.icon16) := File out]>
           (disk Demo.world0).
Proof.
  apply (generate_single_background (E := Demo.env) Demo.icon16 Demo.world0).
  vm_compute. reflexivity.
Defined.

(** On that instance (black background, [transparent] left at its default
    [True]) the canvas and the padding are [(0, 0, 0, 0)]; with
    [transparent=False] the alpha channel is 255. *)
Example bg_of_default_instance :
  bg_of (E := Demo.env) (Demo.pipeline_png Demo.catalog) = [0; 0; 0; 0]
  /\ alpha_channel false = [255].
Proof. split; reflexivity. Qed.

(** ** Markup and file names *)

Section MetadataFacts.

Context `{E : Env}.




End MetadataFacts.

(** The links of the example catalog, with base URL ["/"]. *)
Example html_of_default_instance :
  html (E := Demo.env) (Demo.pipeline_png Demo.catalog)
  = [ "<link rel='icon' type='image/png' href='/favicon-16x16.png' />";
      "<link rel='icon' type='image/png' href='/favicon-32x32.png' />";
      "<link rel='shortcut icon' type='image/ico' href='/favicon.ico' />" ]
  /\ filenames (E := Demo.env) (Demo.pipeline_png Demo.catalog) true
     = [ "/favicon-16x16.png"; "/favicon-32x32.png"; "/favicon.ico" ].
Proof. split; reflexivity. Qed.

(** ** ColorSpec *)

Section ColorSpecFacts.





End ColorSpecFacts.


(** ** Validation and the generation loops *)

Section PipelineFacts.

Context `{E : Env}.

Lemma only_completed_refl (o : Favicons) : only_completed_changed o o.
Proof. destruct o. reflexivity. Qed.

Lemma only_completed_trans (o1 o2 o3 : Favicons) :
  only_completed_changed o1 o2 -> only_completed_changed o2 o3 ->
  only_completed_changed o1 o3.
Proof.
  unfold only_completed_changed. intros H12 H23.
  rewrite H23, H12. reflexivity.
Qed.

Lemma only_completed_set (c : Z) (o : Favicons) :
  only_completed_changed o (set_completed c o).
Proof. reflexivity. Qed.

(** [_validate], with the monad unfolded. *)
Lemma validate_unfold (w : World) :
  _validate w =
  let o := obj w in
  match validate_path (_source o) true false (disk w) with
  | (Raise e, fs1) => (Raise e, mkWorld o fs1 (attempts w))
  | (Ok src, fs1) =>
      let o1 := set_source src o in
      match validate_path (_output_directory o) true true fs1 with
      | (Raise e, fs2) => (Raise e, mkWorld o1 fs2 (attempts w))
      | (Ok out, fs2) =>
          let o2 := set_output_directory out o1 in
          if bool_decide (lower (suffix src) ∈ SUPPORTED_FORMATS)
          then (Ok tt, mkWorld (set_validated true o2) fs2 (attempts w))
          else (Raise (FaviconNotSupportedError src),
                mkWorld o2 fs2 (attempts w))
      end
  end.
Proof.
  unfold _validate. unfold_m. destruct w as [o fs log]. simpl.
  repeat break_leaf; reflexivity.
Qed.

(** What [_validate] leaves alone: the counter, the log, every file, and
    all of the instance but the three attributes it assigns. *)
Lemma validate_frame (w : World) :
  let w' := snd (_validate w) in
  only_validation_changed (obj w) (obj w')
  /\ attempts w' = attempts w
  /\ grows_by_dirs (disk w) (disk w').
Proof.
  rewrite validate_unfold. destruct w as [o fs log]. simpl.
  rewrite validate_path_plain.
  destruct (exists_ fs (_source o)); simpl.
  - pose proof (validate_path_grows (_output_directory o) true true fs) as Hg.
    destruct (validate_path (_output_directory o) true true fs)
      as [[out|e] fs2]; simpl in *.
    + destruct (bool_decide _); simpl; splits; try exact Hg;
        try reflexivity; destruct o; reflexivity.
    + splits; try exact Hg; try reflexivity; destruct o; reflexivity.
  - splits; try apply grows_refl; try reflexivity; destruct o; reflexivity.
Qed.

(** A validation that succeeds has checked both paths and the extension,
    and has assigned the three attributes. *)
Lemma validate_ok (w w' : World) :
  _validate w = (Ok tt, w') ->
  _validated (obj w') = true
  /\ source (obj w') = Some (_source (obj w))
  /\ output_directory (obj w') = Some (_output_directory (obj w))
  /\ exists_ (disk w) (_source (obj w)) = true
  /\ lower (suffix (_source (obj w))) ∈ SUPPORTED_FORMATS.
Proof.
  rewrite validate_unfold. destruct w as [o fs log]. simpl.
  rewrite validate_path_plain.
  destruct (exists_ fs (_source o)) eqn:Hex; simpl; [|discriminate].
  destruct (validate_path (_output_directory o) true true fs)
    as [[out|e] fs2] eqn:Hout; [|discriminate].
  apply validate_path_ok in Hout as ->.
  destruct (bool_decide _) eqn:Hsup; [|discriminate].
  intros [= <-]. simpl. apply bool_decide_eq_true in Hsup. auto.
Qed.

Lemma ensure_validated_unfold (w : World) :
  ensure_validated w = if _validated (obj w) then (Ok tt, w) else _validate w.
Proof.
  unfold ensure_validated. unfold_m. destruct (_validated (obj w)); reflexivity.
Qed.

Lemma ensure_validated_frame (w : World) :
  let w' := snd (ensure_validated w) in
  only_validation_changed (obj w) (obj w')
  /\ attempts w' = attempts w
  /\ grows_by_dirs (disk w) (disk w').
Proof.
  rewrite ensure_validated_unfold. destruct (_validated (obj w)).
  - simpl. splits; [destruct (obj w); reflexivity|reflexivity|apply grows_refl].
  - apply validate_frame.
Qed.

Lemma only_validation_completed (o o' : Favicons) :
  only_validation_changed o o' -> completed o' = completed o.
Proof. intros ->. reflexivity. Qed.

Lemma only_validation_formats (o o' : Favicons) :
  only_validation_changed o o' -> _formats o' = _formats o.
Proof. intros ->. reflexivity. Qed.

Lemma only_validation_temp (o o' : Favicons) :
  only_validation_changed o o' -> _temp_source o' = _temp_source o.
Proof. intros ->. reflexivity. Qed.

Lemma only_completed_formats (o o' : Favicons) :
  only_completed_changed o o' -> _formats o' = _formats o.
Proof. intros ->. reflexivity. Qed.

Lemma only_completed_temp (o o' : Favicons) :
  only_completed_changed o o' -> _temp_source o' = _temp_source o.
Proof. intros ->. reflexivity. Qed.

(** One render, summarised. *)
Lemma generate_single_summary (fp : FaviconProperties) (w : World) :
  let r := fst (_generate_single fp w) in
  let w' := snd (_generate_single fp w) in
  only_completed_changed (obj w) (obj w')
  /\ completed (obj w') = completed (obj w) + (if is_ok r then 1 else 0)
  /\ attempts w' = (attempts w ++ [fp])%list
  /\ keeps_files (disk w) (disk w').
Proof.
  destruct (generate_single_frame fp w) as (Hobj & Hlog & Hfiles).
  cbv zeta. rewrite Hobj.
  destruct (is_ok (fst (_generate_single fp w))); simpl.
  - splits; try assumption; reflexivity.
  - splits; try assumption; [apply only_completed_refl|lia].
Qed.

(** Every coroutine of [gather] run in order, summarised. *)
Lemma run_all_summary (fmts : list FaviconProperties) :
  forall w : World,
    let rs := fst (run_all (map _agenerate_single fmts) w) in
    let w' := snd (run_all (map _agenerate_single fmts) w) in
    only_completed_changed (obj w) (obj w')
    /\ completed (obj w') = completed (obj w) + successes rs
    /\ 0 <= successes rs
    /\ attempts w' = (attempts w ++ fmts)%list
    /\ keeps_files (disk w) (disk w')
    /\ List.length rs = List.length fmts.
Proof.
  induction fmts as [|fp rest IH]; intros w; simpl.
  - rewrite app_nil_r. splits; try lia; try reflexivity;
      [apply only_completed_refl|apply keeps_files_refl].
  - change (_agenerate_single fp) with (_generate_single fp).
    destruct (generate_single_summary fp w) as (Ho & Hc & Hl & Hf).
    destruct (_generate_single fp w) as [r w1]; simpl in *.
    specialize (IH w1). simpl in IH.
    destruct (run_all (map _agenerate_single rest) w1) as [rs w2].
    simpl in *. destruct IH as (Ho' & Hc' & Hpos & Hl' & Hf' & Hlen).
    splits.
    + eapply only_completed_trans; eassumption.
    + rewrite Hc', Hc. destruct r as [[]|e]; simpl; lia.
    + destruct r as [[]|e]; simpl; lia.
    + rewrite Hl', Hl, <- app_assoc. reflexivity.
    + eapply keeps_files_trans; eassumption.
    + destruct r as [[]|e]; simpl; rewrite Hlen; reflexivity.
Qed.

(** The sequential loop stops at the first exception; when there is none it
    has done what running every render does. *)
Lemma for_each_run_all (fmts : list FaviconProperties) :
  forall w : World,
    let rs := fst (run_all (map _agenerate_single fmts) w) in
    let w' := snd (run_all (map _agenerate_single fmts) w) in
    (first_failure rs = Ok tt -> for_each fmts w = (Ok tt, w'))
    /\ (forall w'', for_each fmts w = (Ok tt, w'') ->
        first_failure rs = Ok tt /\ w'' = w'
        /\ successes rs = Z.of_nat (List.length fmts)).
Proof.
  induction fmts as [|fp rest IH]; intros w; simpl.
  - split; [reflexivity|]. intros w'' [= <-]. auto.
  - change (_agenerate_single fp) with (_generate_single fp). unfold bind.
    destruct (_generate_single fp w) as [[[]|e] w1]; simpl.
    + specialize (IH w1). simpl in IH.
      destruct (run_all (map _agenerate_single rest) w1) as [rs w2].
      simpl in *. destruct IH as [IH1 IH2]. split; [exact IH1|].
      intros w'' Hrun. destruct (IH2 w'' Hrun) as (Hff & -> & Hs).
      splits; [exact Hff|reflexivity|]. rewrite Hs. lia.
    + destruct (run_all (map _agenerate_single rest) w1) as [rs w2].
      simpl. split; [discriminate|]. intros w'' [=].
Qed.

(** The sequential loop, summarised. *)
Lemma for_each_summary (fmts : list FaviconProperties) :
  forall w : World,
    let w' := snd (for_each fmts w) in
    only_completed_changed (obj w) (obj w')
    /\ completed (obj w) <= completed (obj w')
    /\ keeps_files (disk w) (disk w').
Proof.
  induction fmts as [|fp rest IH]; intros w; simpl.
  - splits; [apply only_completed_refl|lia|apply keeps_files_refl].
  - unfold bind.
    destruct (generate_single_summary fp w) as (Ho & Hc & _ & Hf).
    destruct (_generate_single fp w) as [[[]|e] w1]; simpl in *.
    + destruct (IH w1) as (Ho' & Hc' & Hf').
      splits.
      * eapply only_completed_trans; eassumption.
      * lia.
      * eapply keeps_files_trans; eassumption.
    + splits; [exact Ho|lia|exact Hf].
Qed.

Lemma sgenerate_unfold (w : World) :
  sgenerate w =
  match ensure_validated w with
  | (Ok _, w1) => for_each (_formats (obj w1)) w1
  | (Raise e, w1) => (Raise e, w1)
  end.
Proof.
  unfold sgenerate. unfold_m.
  destruct (ensure_validated w) as [[u|e] w1]; reflexivity.
Qed.

End PipelineFacts.

(** ** The event loop *)

Section EventLoopFacts.

Context `{E : Env}.

Lemma run_all_length (cs : list (M unit)) :
  forall w : World, List.length (fst (run_all cs w)) = List.length cs.
Proof.
  induction cs as [|c cs IH]; intros w; simpl; [reflexivity|].
  destruct (c w) as [r w1]. specialize (IH w1).
  destruct (run_all cs w1) as [rs w2]. simpl in *. rewrite IH. reflexivity.
Qed.

(** The first steps of all the tasks run back to back, each to its end,
    before anything they scheduled. *)
Lemma run_task_steps (cs : list (M unit)) :
  forall (q : list handle) (nf nfin : nat) (w : World) (fuel : nat),
    run_loop (List.length cs + fuel)
      (mkLoop (map TaskStep cs ++ q) nf nfin None None w)
    = run_loop fuel
        (mkLoop (q ++ map DoneCallback (fst (run_all cs w))) nf nfin None None
           (snd (run_all cs w))).
Proof.
  induction cs as [|c cs IH]; intros q nf nfin w fuel.
  - simpl. rewrite app_nil_r. reflexivity.
  - cbn [List.length Nat.add map app run_loop resumed ready nfuts nfinished
         outer world run_handle run_all].
    destruct (c w) as [r w1]. cbn [fst snd].
    rewrite <- app_assoc. rewrite IH.
    destruct (run_all cs w1) as [rs w2]. cbn [fst snd map].
    rewrite <- app_assoc. reflexivity.
Qed.

(** Callbacks that find the outer future done only count. *)
Lemma run_callbacks_done (rs : list (result unit)) :
  forall (q : list handle) (nf nfin : nat) (o : result unit) (w : World)
         (fuel : nat),
    run_loop (List.length rs + fuel)
      (mkLoop (map DoneCallback rs ++ q) nf nfin (Some o) None w)
    = run_loop fuel
        (mkLoop q nf (nfin + List.length rs) (Some o) None w).
Proof.
  induction rs as [|r rs IH]; intros q nf nfin o w fuel.
  - simpl. rewrite Nat.add_0_r. reflexivity.
  - cbn [List.length Nat.add map app run_loop resumed ready nfuts nfinished
         outer world run_handle].
    rewrite IH. rewrite Nat.add_succ_r. reflexivity.
Qed.

(** Callbacks that find the outer future pending: the first exception
    completes it, or else the last child does; either way the wake-up of the
    awaiting task is queued behind the callbacks still waiting. *)
Lemma run_callbacks_pending (rs : list (result unit)) :
  forall (nf nfin : nat) (w : World) (fuel : nat),
    rs <> [] ->
    (nfin + List.length rs)%nat = nf ->
    run_loop (List.length rs + fuel)
      (mkLoop (map DoneCallback rs) nf nfin None None w)
    = run_loop fuel
        (mkLoop [Wakeup] nf nf (Some (first_failure rs)) None w).
Proof.
  induction rs as [|r rs IH]; intros nf nfin w fuel Hne Hcount;
    [congruence|].
  cbn [List.length Nat.add map app run_loop resumed ready nfuts nfinished
       outer world run_handle].
  destruct r as [[]|e].
  - destruct rs as [|r' rs'].
    + simpl in Hcount. replace (S nfin) with nf by lia.
      rewrite Nat.eqb_refl. reflexivity.
    + assert (Hneq : (S nfin =? nf)%nat = false).
      { apply Nat.eqb_neq. simpl in Hcount. lia. }
      rewrite Hneq. cbn [first_failure].
      apply IH; [discriminate|]. simpl in *. lia.
  - pose proof (run_callbacks_done rs [Wakeup] nf (S nfin) (Raise e) w fuel)
      as Hdone.
    rewrite Hdone. cbn [first_failure].
    replace (S nfin + List.length rs)%nat with nf by (simpl in Hcount; lia).
    reflexivity.
Qed.

(** The wake-up hands the outer future's result to the awaiting task. *)
Lemma run_wakeup (nf nfin : nat) (o : result unit) (w : World) (fuel : nat) :
  run_loop (S fuel) (mkLoop [Wakeup] nf nfin (Some o) None w) = Some (o, w).
Proof. simpl. destruct fuel; reflexivity. Qed.

(** [await gather(...)] returns, given fuel for two handles per coroutine
    and the wake-up: every coroutine has run, in order, and the result is
    the first exception among their outcomes, if any. *)
Lemma gather_settles (cs : list (M unit)) (w : World) (fuel : nat) :
  (2 * List.length cs + 1 <= fuel)%nat ->
  await fuel (gather cs w)
  = Some (first_failure (fst (run_all cs w)), snd (run_all cs w)).
Proof.
  intros Hfuel. destruct cs as [|c cs]; [reflexivity|].
  set (all := c :: cs) in *.
  unfold gather, await. subst all. cbn [outer].
  set (all := c :: cs) in *.
  replace fuel
    with (List.length all
          + (List.length (fst (run_all all w))
             + S (fuel - 2 * List.length all - 1)))%nat
    by (rewrite run_all_length; lia).
  pose proof (run_task_steps all [] (List.length all) 0 w) as Hsteps.
  rewrite app_nil_r in Hsteps. rewrite Hsteps. cbn [app].
  rewrite run_callbacks_pending.
  - apply run_wakeup.
  - intros Hnil. apply (f_equal (@List.length _)) in Hnil.
    rewrite run_all_length in Hnil. discriminate.
  - rewrite run_all_length. reflexivity.
Qed.

(** [agenerate] returns, given that fuel; what it returns is decided by
    running every render. *)
Lemma agenerate_settles (fuel : nat) (w : World) :
  (2 * List.length (_formats (obj w)) + 1 <= fuel)%nat ->
  agenerate fuel w =
  match ensure_validated w with
  | (Raise e, w1) => Some (Raise e, w1)
  | (Ok _, w1) =>
      Some (first_failure
              (fst (run_all (map _agenerate_single (_formats (obj w1))) w1)),
            snd (run_all (map _agenerate_single (_formats (obj w1))) w1))
  end.
Proof.
  intros Hfuel. unfold agenerate.
  destruct (ensure_validated_frame w) as (Hobj & _ & _).
  destruct (ensure_validated w) as [[u|e] w1]; [|reflexivity].
  simpl in Hobj. apply only_validation_formats in Hobj.
  apply gather_settles. rewrite length_map, Hobj. exact Hfuel.
Qed.

End EventLoopFacts.

(** ** Sequential and concurrent generation *)

Section GenerationFacts.

Context `{E : Env}.

Lemma surfaced_first_failure (rs : list (result unit)) :
  surfaced (first_failure rs) = firstn 1 (failures rs).
Proof.
  induction rs as [|[[]|e] rs IH]; simpl; [reflexivity|exact IH|].
  destruct (failures rs); reflexivity.
Qed.


(** What [sgenerate] leaves alone, whether it raises or not. *)
Lemma sgenerate_frame (w : World) :
  let w' := snd (sgenerate w) in
  completed (obj w) <= completed (obj w')
  /\ _temp_source (obj w') = _temp_source (obj w)
  /\ _source (obj w') = _source (obj w)
  /\ keeps_files (disk w) (disk w').
Proof.
  rewrite sgenerate_unfold.
  destruct (ensure_validated_frame w) as (Hobj & _ & Hgrow).
  destruct (ensure_validated w) as [[u|e] w1]; simpl in *.
  - destruct (for_each_summary (_formats (obj w1)) w1) as (Ho & Hc & Hf).
    splits.
    + rewrite <- (only_validation_completed _ _ Hobj). exact Hc.
    + rewrite (only_completed_temp _ _ Ho).
      apply (only_validation_temp _ _ Hobj).
    + rewrite Ho, Hobj. reflexivity.
    + eapply keeps_files_trans; [apply grows_keeps_files, Hgrow|exact Hf].
  - splits.
    + rewrite (only_validation_completed _ _ Hobj). lia.
    + apply (only_validation_temp _ _ Hobj).
    + rewrite Hobj. reflexivity.
    + apply grows_keeps_files, Hgrow.
Qed.


(** C3, as the code has it: whenever one of the two entry points completes
    without an exception on a given pipeline and disk, so does the other,
    and they leave the very same world behind: the same files with the same
    contents, the same counter, the same instance.  When a render raises
    they can differ: the sequential loop stops at it, the concurrent one
    still runs the renders after it. *)
Theorem sgenerate_agenerate_agree_on_success (fuel : nat) (w w' : World) :
  (2 * List.length (_formats (obj w)) + 1 <= fuel)%nat ->
  sgenerate w = (Ok tt, w') <-> agenerate fuel w = Some (Ok tt, w').
Proof.
  intros Hfuel. rewrite sgenerate_unfold, agenerate_settles by exact Hfuel.
  destruct (ensure_validated w) as [[u|e] w1].
  - destruct (for_each_run_all (_formats (obj w1)) w1) as [Hto Hfrom].
    cbv zeta in Hto, Hfrom. split.
    + intros Hrun. destruct (Hfrom w' Hrun) as (-> & -> & _). reflexivity.
    + intros [= Hff <-]. apply Hto, Hff.
  - split; intros H; discriminate.
Qed.

(** C4, as the code has it: once validation has passed, [agenerate] enters
    [_generate_single] for every descriptor of the catalog, in catalog
    order, whatever the earlier renders raised; only then does it return,
    and what it raises is the first exception in catalog order, alone: the
    later ones are not reported. *)
Theorem agenerate_attempts_every_variant (fuel : nat) (w w1 : World) :
  ensure_validated w = (Ok tt, w1) ->
  (2 * List.length (_formats (obj w)) + 1 <= fuel)%nat ->
  let rs := fst (run_all (map _agenerate_single (_formats (obj w))) w1) in
  let w' := snd (run_all (map _agenerate_single (_formats (obj w))) w1) in
  agenerate fuel w = Some (first_failure rs, w')
  /\ attempts w' = (attempts w ++ _formats (obj w))%list
  /\ List.length rs = List.length (_formats (obj w))
  /\ surfaced (first_failure rs) = firstn 1 (failures rs).
Proof.
  intros Hval Hfuel. cbv zeta.
  rewrite agenerate_settles by exact Hfuel.
  destruct (ensure_validated_frame w) as (Hobj & Hlog & _).
  rewrite Hval in *. simpl in Hobj, Hlog.
  rewrite <- (only_validation_formats _ _ Hobj).
  destruct (run_all_summary (_formats (obj w1)) w1)
    as (_ & _ & _ & Hl & _ & Hlen).
  splits.
  - reflexivity.
  - rewrite Hl, Hlog. reflexivity.
  - exact Hlen.
  - apply surfaced_first_failure.
Qed.

End GenerationFacts.

Lemma sgenerate_agenerate_agree_on_success_witness :
  fst (sgenerate (E := Demo.env) Demo.world0) = Ok tt
  /\ (sgenerate Demo.world0
      = (Ok tt, snd (sgenerate (E := Demo.env) Demo.world0))
      <-> agenerate 7 Demo.world0
          = Some (Ok tt, snd (sgenerate (E := Demo.env) Demo.world0))).
Proof.
  split; [vm_compute; reflexivity|].
  apply (sgenerate_agenerate_agree_on_success (E := Demo.env) 7 Demo.world0).
  vm_compute. lia.
Defined.

(** C3 as stated fails when a render raises.  The pipeline for
    [/srv/logo.png] and [/out] is validated; a directory sits at
    [/out/favicon-32x32.png], so the second render raises
    [IsADirectoryError].  [sgenerate] stops there: one file written, counter
    1, no [/out/favicon.ico].  [agenerate] runs the third render too: two
    files written, counter 2, [/out/favicon.ico] is there. *)
Lemma sgenerate_agenerate_differ_on_failure :
  _validated (obj Demo.world_blocked) = true
  /\ fst (sgenerate (E := Demo.env) Demo.world_blocked)
     = Raise IsADirectoryError
  /\ completed (obj (snd (sgenerate (E := Demo.env) Demo.world_blocked))) = 1
  /\ is_file (disk (snd (sgenerate (E := Demo.env) Demo.world_blocked)))
       (mkpath ["out"; "favicon.ico"]) = false
  /\ option_map fst (agenerate (E := Demo.env) 7 Demo.world_blocked)
     = Some (Raise IsADirectoryError)
  /\ option_map (fun out => completed (obj (snd out)))
       (agenerate (E := Demo.env) 7 Demo.world_blocked) = Some 2
  /\ option_map (fun out => is_file (disk (snd out))
                              (mkpath ["out"; "favicon.ico"]))
       (agenerate (E := Demo.env) 7 Demo.world_blocked) = Some true.
Proof. splits; vm_compute; reflexivity. Qed.

Lemma agenerate_attempts_every_variant_witness :
  agenerate 7 Demo.world_odd
  = Some
      (first_failure
         (fst (run_all (map (_agenerate_single (E := Demo.env_odd))
                          (_formats (obj Demo.world_odd))) Demo.world_odd)),
       snd (run_all (map (_agenerate_single (E := Demo.env_odd))
                       (_formats (obj Demo.world_odd))) Demo.world_odd))
  /\ attempts
       (snd (run_all (map (_agenerate_single (E := Demo.env_odd))
                        (_formats (obj Demo.world_odd))) Demo.world_odd))
     = (attempts Demo.world_odd ++ _formats (obj Demo.world_odd))%list
  /\ List.length
       (fst (run_all (map (_agenerate_single (E := Demo.env_odd))
                        (_formats (obj Demo.world_odd))) Demo.world_odd))
     = List.length (_formats (obj Demo.world_odd))
  /\ surfaced
       (first_failure
          (fst (run_all (map (_agenerate_single (E := Demo.env_odd))
                           (_formats (obj Demo.world_odd))) Demo.world_odd)))
     = firstn 1
         (failures
            (fst (run_all (map (_agenerate_single (E := Demo.env_odd))
                             (_formats (obj Demo.world_odd))) Demo.world_odd))).
Proof.
  apply (agenerate_attempts_every_variant (E := Demo.env_odd) 7
           Demo.world_odd Demo.world_odd).
  - rewrite ensure_validated_unfold.
    replace (_validated (obj Demo.world_odd)) with true
      by (vm_compute; reflexivity).
    reflexivity.
  - vm_compute. lia.
Defined.

(** C4 as stated fails on aggregation.  In the catalog of [Demo.env_odd]
    the second render raises [IsADirectoryError] (a directory sits at its
    output path) and the third raises the encoder's error for an unknown
    format.  All three renders are entered, but [agenerate] raises the
    first exception only; the second failure is not among what the caller
    sees. *)
Lemma agenerate_surfaces_first_failure_only :
  _formats (obj Demo.world_odd) = [Demo.icon16; Demo.icon32; Demo.icon_webx]
  /\ failures
       (fst (run_all (map (_agenerate_single (E := Demo.env_odd))
                        (_formats (obj Demo.world_odd))) Demo.world_odd))
     = [IsADirectoryError; LibraryError "KeyError"]
  /\ option_map (fun out => surfaced (fst out))
       (agenerate (E := Demo.env_odd) 7 Demo.world_odd)
     = Some [IsADirectoryError]
  /\ option_map (fun out => attempts (snd out))
       (agenerate (E := Demo.env_odd) 7 Demo.world_odd)
     = Some [Demo.icon16; Demo.icon32; Demo.icon_webx]
  /\ option_map (fun out => surfaced (fst out))
       (agenerate (E := Demo.env_odd) 7 Demo.world_odd)
     <> Some
          (failures
             (fst (run_all (map (_agenerate_single (E := Demo.env_odd))
                              (_formats (obj Demo.world_odd)))
                     Demo.world_odd))).
Proof.
  splits; try (vm_compute; reflexivity).
  vm_compute. discriminate.
Qed.

(** ** Construction, validation and teardown *)

Section LifecycleFacts.

Context `{E : Env}.

(** [__init__], with the monad unfolded. *)
Lemma init_unfold (src out : path) (col : LooseColor) (t : bool)
  (url : string) (fs : FS) :
  __init__ src out col t url fs =
  match Color_init col with
  | Raise e => (Raise e, fs)
  | Ok c =>
      if String.eqb (suffix src) ".svg"
      then
        match svg_to_png src fs with
        | (Ok png, fs') =>
            (Ok (mkFavicons false out generate_icon_types t url c
                   bound_sgenerate 0 None png None None), fs')
        | (Raise e, fs') => (Raise e, fs')
        end
      else
        (Ok (mkFavicons false out generate_icon_types t url c
               bound_sgenerate 0 None src None None), fs)
  end.
Proof.
  unfold __init__, _check_source_format. unfold_m. simpl.
  destruct (Color_init col) as [c|e]; [|reflexivity].
  destruct (String.eqb (suffix src) ".svg"); simpl; [|reflexivity].
  destruct (svg_to_png src fs) as [[png|e] fs']; reflexivity.
Qed.

(** A rasterization that succeeds has made the temporary file, under the
    name [mkstemp] picked, and has removed nothing. *)
Lemma svg_to_png_ok (src png : path) (fs fs' : FS) :
  svg_to_png src fs = (Ok png, fs') ->
  png = mkstemp_name fs ".png"
  /\ is_file fs' png = true
  /\ keeps_files fs fs'.
Proof.
  unfold svg_to_png, mkstemp.
  pose proof (write_bytes_keeps_files (mkstemp_name fs ".png") [] fs) as Hk1.
  destruct (write_bytes (mkstemp_name fs ".png") [] fs) as [[u|e] fs1];
    [|discriminate].
  simpl in Hk1.
  destruct (read_bytes src fs1) as [svg|e]; [|discriminate].
  destruct (svg2png svg) as [data|e]; [|discriminate].
  pose proof (write_bytes_keeps_files (mkstemp_name fs ".png") data fs1) as Hk2.
  destruct (write_bytes (mkstemp_name fs ".png") data fs1) as [[u'|e] fs2] eqn:Hw;
    [|discriminate].
  simpl in Hk2. intros [= <- <-].
  apply write_bytes_inv in Hw as [(_ & -> & Hne)|(e & He & _)]; [|discriminate].
  splits.
  - reflexivity.
  - unfold is_file, stat. destruct (mkstemp_name fs ".png") as [|x d] eqn:Hn;
      [congruence|]. rewrite lookup_insert_eq. reflexivity.
  - eapply keeps_files_trans; eassumption.
Qed.

Lemma exit_without_temp (w : World) :
  _temp_source (obj w) = None -> __exit__ w = (Ok tt, w).
Proof.
  intros Hnone. unfold __exit__, _close_temp_source. unfold_m.
  rewrite Hnone. reflexivity.
Qed.

Lemma enter_frame (w : World) :
  let w' := snd (__enter__ w) in
  _temp_source (obj w') = _temp_source (obj w)
  /\ _source (obj w') = _source (obj w)
  /\ completed (obj w') = completed (obj w)
  /\ keeps_files (disk w) (disk w').
Proof.
  unfold __enter__. unfold bind.
  destruct (validate_frame w) as (Hobj & _ & Hgrow).
  destruct (_validate w) as [[u|e] w1]; simpl in *.
  - splits; try (rewrite Hobj; reflexivity). apply grows_keeps_files, Hgrow.
  - splits; try (rewrite Hobj; reflexivity). apply grows_keeps_files, Hgrow.
Qed.

(** C1 (the code departs from the claim here): for an [.svg] source the
    constructor does create the temporary PNG before any render, but it
    never records it: [_temp_source] stays [None], so the teardown has
    nothing to delete.  After [with pipeline: pipeline.sgenerate()] the
    temporary file is still on the disk. *)
Theorem temp_source_is_never_deleted (src out : path) (col : LooseColor)
  (t : bool) (url : string) (fs : FS) :
  suffix src = ".svg" ->
  is_ok (fst (__init__ src out col t url fs)) = true ->
  let fs1 := snd (__init__ src out col t url fs) in
  exists self : Favicons,
    fst (__init__ src out col t url fs) = Ok self
    /\ _source self = mkstemp_name fs ".png"
    /\ is_file fs1 (_source self) = true
    /\ _temp_source self = None
    /\ (forall w : World, _temp_source (obj w) = None ->
        __exit__ w = (Ok tt, w) /\ __aexit__ w = (Ok tt, w))
    /\ is_file (disk (snd (with_sync sgenerate (mkWorld self fs1 []))))
         (_source self) = true.
Proof.
  intros Hsvg Hinit. rewrite init_unfold in *. rewrite Hsvg in *.
  change (String.eqb ".svg" ".svg") with true in *. cbv iota in *.
  destruct (Color_init col) as [c|e]; [|discriminate].
  destruct (svg_to_png src fs) as [[png|e] fs'] eqn:Hsvg2png; [|discriminate].
  cbn [fst snd]. eexists. split; [reflexivity|]. cbn [_source _temp_source].
  apply svg_to_png_ok in Hsvg2png as (Hname & Hfile & _).
  splits; try assumption; try reflexivity.
  - intros w Hnone. split; apply exit_without_temp, Hnone.
  - set (self := mkFavicons _ _ _ _ _ _ _ _ _ _ _ _).
    unfold with_sync.
    destruct (enter_frame (mkWorld self fs' [])) as (Ht1 & _ & _ & Hk1).
    destruct (__enter__ (mkWorld self fs' [])) as [[u|e] w1]; simpl in *.
    + destruct (sgenerate_frame w1) as (_ & Ht2 & _ & Hk2).
      destruct (sgenerate w1) as [r w2]; simpl in *.
      rewrite exit_without_temp by congruence.
      simpl. apply Hk2, Hk1, Hfile.
    + apply Hk1, Hfile.
Qed.

End LifecycleFacts.

Lemma temp_source_is_never_deleted_witness :
  exists self : Favicons (E := Demo.env),
    fst (Demo.construct (mkpath ["srv"; "logo.svg"]) (mkpath ["out"])
           Demo.disk0) = Ok self
    /\ _source self = mkstemp_name (Env := Demo.env) Demo.disk0 ".png"
    /\ is_file Demo.disk_svg (_source self) = true
    /\ _temp_source self = None
    /\ (forall w : World (E := Demo.env), _temp_source (obj w) = None ->
        __exit__ w = (Ok tt, w) /\ __aexit__ w = (Ok tt, w))
    /\ is_file
         (disk (snd (with_sync sgenerate (mkWorld self Demo.disk_svg []))))
         (_source self) = true.
Proof.
  apply (temp_source_is_never_deleted (E := Demo.env)
           (mkpath ["srv"; "logo.svg"]) (mkpath ["out"]) (ColorStr "#000000")
           true "/" Demo.disk0).
  - reflexivity.
  - vm_compute. reflexivity.
Defined.

(** [with Favicons("/srv/logo.svg", "/out") as f: f.sgenerate()]: the run
    succeeds, three files are written, and [/tmp/tmpfav.png] is still
    there after [__exit__]. *)
Example temp_file_left_behind :
  fst (with_sync (E := Demo.env) sgenerate
         (mkWorld Demo.pipeline_svg Demo.disk_svg [])) = Ok tt
  /\ is_file Demo.disk0 (mkpath ["tmp"; "tmpfav.png"]) = false
  /\ is_file
       (disk (snd (with_sync (E := Demo.env) sgenerate
                     (mkWorld Demo.pipeline_svg Demo.disk_svg []))))
       (mkpath ["tmp"; "tmpfav.png"]) = true.
Proof. splits; vm_compute; reflexivity. Qed.

(** ** Unsupported and upper-case extensions *)

Section ExtensionFacts.

Context `{E : Env}.


(** C9: the constructor rasterizes exactly when the suffix is the
    lower-case [".svg"], and does so before any validation: in every case
    the instance it returns is not validated and has neither [source] nor
    [output_directory].  A source whose suffix lower-cases to [".svg"]
    without being [".svg"] (such as [".SVG"]) is kept as it is, the disk is
    untouched, and, [".svg"] being a supported format, validation passes
    when the file and the output directory exist.  A lower-case [.svg]
    source is read by the constructor itself: when it is missing, the
    constructor raises the plain [FileNotFoundError] of the read. *)
Theorem svg_detection_is_exact_and_early (src out : path) (col : LooseColor)
  (t : bool) (url : string) (fs : FS) :
  __init__ src out col t url fs
  = match Color_init col with
    | Raise e => (Raise e, fs)
    | Ok c =>
        if String.eqb (suffix src) ".svg"
        then
          match svg_to_png src fs with
          | (Ok png, fs') =>
              (Ok (mkFavicons false out generate_icon_types t url c
                     bound_sgenerate 0 None png None None), fs')
          | (Raise e, fs') => (Raise e, fs')
          end
        else
          (Ok (mkFavicons false out generate_icon_types t url c
                 bound_sgenerate 0 None src None None), fs)
    end
  /\ (forall c : Color,
        Color_init col = Ok c ->
        suffix src <> ".svg" ->
        lower (suffix src) = ".svg" ->
        ".svg" ∈ SUPPORTED_FORMATS ->
        exists_ fs src = true ->
        is_dir fs out = true ->
        exists self : Favicons,
          __init__ src out col t url fs = (Ok self, fs)
          /\ _source self = src
          /\ _validated self = false
          /\ fst (_validate (mkWorld self fs [])) = Ok tt
          /\ disk (snd (_validate (mkWorld self fs []))) = fs
          /\ source (obj (snd (_validate (mkWorld self fs [])))) = Some src)
  /\ (forall c : Color,
        Color_init col = Ok c ->
        suffix src = ".svg" ->
        exists_ fs src = false ->
        is_dir fs (parent (mkstemp_name fs ".png")) = true ->
        exists_ fs (mkstemp_name fs ".png") = false ->
        mkstemp_name fs ".png" <> src ->
        fst (__init__ src out col t url fs) = Raise FileNotFoundError).
Proof.
  splits.
  - apply init_unfold.
  - intros c Hcol Hne Hlow Hsup Hex Hout.
    rewrite init_unfold, Hcol.
    destruct (String.eqb (suffix src) ".svg") eqn:Heqb.
    { apply String.eqb_eq in Heqb. contradiction. }
    eexists. split; [reflexivity|]. cbn [_source _validated].
    rewrite validate_unfold. cbn [obj disk attempts _source _output_directory].
    cbv zeta. rewrite validate_path_plain, Hex.
    rewrite validate_path_existing_dir by exact Hout.
    rewrite Hlow. rewrite bool_decide_eq_true_2 by exact Hsup.
    splits; reflexivity.
  - intros c Hcol Hsvg Hmissing Hparent Hfresh Hneq.
    rewrite init_unfold, Hcol, Hsvg.
    change (String.eqb ".svg" ".svg") with true. cbv iota.
    unfold svg_to_png, mkstemp, write_bytes.
    set (tmp := mkstemp_name fs ".png") in *.
    unfold exists_ in Hfresh. unfold is_dir in Hparent.
    destruct (stat fs tmp) as [n|] eqn:Htmp; [discriminate|].
    destruct (stat fs (parent tmp)) as [[|b]|]; try discriminate.
    assert (Hread : read_bytes src (<[tmp := File []]> fs) = Raise FileNotFoundError).
    { assert (Hstat : stat (<[tmp := File []]> fs) src = stat fs src).
      { destruct src as [|x d]; [reflexivity|].
        rewrite !stat_cons. apply lookup_insert_ne, Hneq. }
      unfold read_bytes. rewrite Hstat. unfold exists_ in Hmissing.
      destruct (stat fs src); [discriminate|reflexivity]. }
    rewrite Hread. reflexivity.
Qed.

End ExtensionFacts.


(** [/srv/notes.txt] exists and [/out] is there: [FaviconNotSupportedError],
    no render entered. *)
Example unsupported_text_file :
  fst (_validate (E := Demo.env) Demo.world_txt)
  = Raise (FaviconNotSupportedError (mkpath ["srv"; "notes.txt"]))
  /\ fst (sgenerate (E := Demo.env) Demo.world_txt)
     = Raise (FaviconNotSupportedError (mkpath ["srv"; "notes.txt"]))
  /\ attempts (snd (sgenerate (E := Demo.env) Demo.world_txt)) = [].
Proof. splits; vm_compute; reflexivity. Qed.


(** [/srv/LOGO.SVG]: the constructor keeps the source and makes no
    temporary file; validation passes.  [/srv/logo.svg]: the constructor
    makes [/tmp/tmpfav.png] and the instance points at it, not validated.
    [/srv/gone.svg], which does not exist: the constructor raises
    [FileNotFoundError] and leaves an empty temporary file. *)
Example upper_case_svg_is_not_rasterized :
  option_map _source
    (match fst (Demo.construct (E := Demo.env) (mkpath ["srv"; "LOGO.SVG"])
                  (mkpath ["out"]) Demo.disk0) with
     | Ok self => Some self
     | Raise _ => None
     end) = Some (mkpath ["srv"; "LOGO.SVG"])
  /\ is_file (snd (Demo.construct (E := Demo.env) (mkpath ["srv"; "LOGO.SVG"])
                     (mkpath ["out"]) Demo.disk0))
       (mkpath ["tmp"; "tmpfav.png"]) = false
  /\ fst (_validate (E := Demo.env) Demo.world_upper) = Ok tt
  /\ option_map _source
       (match fst (Demo.construct (E := Demo.env) (mkpath ["srv"; "logo.svg"])
                     (mkpath ["out"]) Demo.disk0) with
        | Ok self => Some self
        | Raise _ => None
        end) = Some (mkpath ["tmp"; "tmpfav.png"])
  /\ is_file Demo.disk_svg (mkpath ["tmp"; "tmpfav.png"]) = true
  /\ _validated Demo.pipeline_svg = false
  /\ is_ok (fst (Demo.construct (E := Demo.env) (mkpath ["srv"; "gone.svg"])
                   (mkpath ["out"]) Demo.disk0)) = false
  /\ read_bytes (mkpath ["tmp"; "tmpfav.png"])
       (snd (Demo.construct (E := Demo.env) (mkpath ["srv"; "gone.svg"])
               (mkpath ["out"]) Demo.disk0)) = Ok [].
Proof. splits; vm_compute; reflexivity. Qed.

(** ** The counter *)

Section CounterFacts.

Context `{E : Env}.

Lemma exit_keeps_instance (w : World) : obj (snd (__exit__ w)) = obj w.
Proof.
  unfold __exit__, _close_temp_source. unfold_m.
  destruct (_temp_source (obj w)) as [tmp|]; [|reflexivity].
  destruct (unlink tmp (disk w)) as [[u|e] fs']; simpl; [reflexivity|].
  destruct (is_FileNotFoundError e); reflexivity.
Qed.



End CounterFacts.

(** Two runs over the catalog of three descriptors on one instance: 6. *)
Example completed_after_two_runs :
  completed (obj Demo.world0) = 0
  /\ fst (repeat_sgenerate (E := Demo.env) 2 Demo.world0) = Ok tt
  /\ completed (obj (snd (repeat_sgenerate (E := Demo.env) 2 Demo.world0))) = 6.
Proof. splits; vm_compute; reflexivity. Qed.

(** * Further properties of the two modules *)

(** ** [validate_path], continued *)

Section ValidatePathMore.

Lemma grows_exists (fs fs' : FS) (p : path) :
  grows_by_dirs fs fs' -> exists_ fs p = true -> exists_ fs' p = true.
Proof.
  intros Hg. unfold exists_, stat. destruct p as [|x d]; [trivial|].
  destruct (Hg (x :: d)) as [->|[Hn ->]]; [trivial|]. reflexivity.
Qed.

Lemma mkdir_ok_is_dir (ok : bool) (p : path) (fs fs' : FS) :
  mkdir ok p fs = (Ok tt, fs') -> is_dir fs' p = true.
Proof.
  unfold mkdir. destruct (os_mkdir p fs) as [[u|e] fs0] eqn:Hos.
  - intros [= <-].
    apply os_mkdir_inv in Hos as [(_ & Hnone & ->)|(e & He & _)];
      [|discriminate].
    unfold is_dir, stat. destruct p as [|x d]; [reflexivity|].
    rewrite lookup_insert_eq. reflexivity.
  - unfold mkdir_oserror. destruct (ok && is_dir fs p) eqn:Hok;
      intros [= <-]. apply andb_prop in Hok. apply Hok.
Qed.

Lemma mkdir_parents_ok_is_dir (d : path) :
  forall (ok : bool) (fs fs' : FS),
    mkdir_parents ok d fs = (Ok tt, fs') -> is_dir fs' d = true.
Proof.
  assert (Hos : forall (p : path) (fs fs0 : FS) (u : unit),
             os_mkdir p fs = (Ok u, fs0) -> is_dir fs0 p = true).
  { intros p fs fs0 u H.
    apply os_mkdir_inv in H as [(_ & _ & ->)|(e & He & _)]; [|discriminate].
    unfold is_dir, stat. destruct p as [|x d']; [reflexivity|].
    rewrite lookup_insert_eq. reflexivity. }
  assert (Herr : forall (ok : bool) (p : path) (e : exn) (fs fs' : FS),
             mkdir_oserror ok p e fs = (Ok tt, fs') -> is_dir fs' p = true).
  { intros ok p e fs fs'. unfold mkdir_oserror.
    destruct (ok && is_dir fs p) eqn:Hok; intros [= <-].
    apply andb_prop in Hok. apply Hok. }
  induction d as [|x d IH]; intros ok fs fs'; simpl.
  - intros _. reflexivity.
  - destruct (os_mkdir (x :: d) fs) as [[u|e] fs0] eqn:Hmk.
    + intros [= <-]. eapply Hos, Hmk.
    + destruct e; try (apply Herr).
      destruct (mkdir_parents true d fs) as [[[]|e] fs1]; [|discriminate].
      apply mkdir_ok_is_dir.
Qed.

Lemma grows_is_dir (fs fs' : FS) (p : path) :
  grows_by_dirs fs fs' -> is_dir fs p = true -> is_dir fs' p = true.
Proof.
  intros Hg. unfold is_dir, stat. destruct p as [|x d]; [trivial|].
  destruct (Hg (x :: d)) as [->|[Hn ->]]; [trivial|]. reflexivity.
Qed.

Lemma validate_path_must_exist (p q : path) (create : bool) (fs fs1 : FS) :
  validate_path p true create fs = (Ok q, fs1) -> exists_ fs1 p = true.
Proof.
  unfold validate_path.
  destruct (if create then _ else _) as [[u|e] fs0]; [|discriminate].
  simpl. destruct (exists_ fs0 p) eqn:Hthere; [|discriminate].
  intros [= _ <-]. exact Hthere.
Qed.

(** A call of [validate_path] that returned returns again, and changes
    nothing, on any disk that has since only gained directories. *)
Lemma validate_path_stable (p q : path) (must_exist create : bool)
  (fs fs1 fs' : FS) :
  validate_path p must_exist create fs = (Ok q, fs1) ->
  grows_by_dirs fs1 fs' ->
  validate_path p must_exist create fs' = (Ok p, fs').
Proof.
  intros Hrun Hg.
  assert (Hex : must_exist && negb (exists_ fs' p) = false).
  { destruct must_exist; [|reflexivity]. simpl.
    apply validate_path_must_exist in Hrun.
    rewrite (grows_exists _ _ _ Hg Hrun). reflexivity. }
  assert (Hmade : create = true ->
                  negb (is_dir fs' p) && negb (exists_ fs' (parent p)) = false).
  { intros ->. revert Hrun. unfold validate_path. rewrite is_dir_and_absent.
    destruct (negb (is_dir fs p) && negb (exists_ fs (parent p))) eqn:Hcond.
    - pose proof (mkdir_parents_ok_is_dir (parent p) false fs) as Hdir.
      destruct (mkdir_parents false (parent p) fs) as [[[]|e] fs2];
        [|discriminate].
      specialize (Hdir fs2 eq_refl).
      destruct (must_exist && negb (exists_ fs2 p)); [discriminate|].
      intros [= _ <-].
      rewrite (grows_exists _ _ _ Hg (is_dir_exists _ _ Hdir)).
      apply andb_false_r.
    - destruct (must_exist && negb (exists_ fs p)); [discriminate|].
      intros [= _ <-].
      apply andb_false_iff in Hcond as [Hd|Hpar].
      + apply negb_false_iff in Hd. rewrite (grows_is_dir _ _ _ Hg Hd).
        reflexivity.
      + apply negb_false_iff in Hpar. rewrite (grows_exists _ _ _ Hg Hpar).
        apply andb_false_r. }
  unfold validate_path. rewrite is_dir_and_absent.
  destruct create; [rewrite (Hmade eq_refl)|]; rewrite Hex; reflexivity.
Qed.

(** X1: what every call of [validate_path] guarantees: it only ever adds
    directories at paths that were free, so every file is left as it was;
    when it returns, it returns the path it was given, and with [must_exist]
    that path exists afterwards; without [create] it touches nothing and the
    only exception it can raise is [FaviconNotFoundError] for that path,
    when [must_exist] is set and the path is absent. *)
Theorem validate_path_contract (p : path) (must_exist create : bool) (fs : FS) :
  grows_by_dirs fs (snd (validate_path p must_exist create fs))
  /\ same_files fs (snd (validate_path p must_exist create fs))
  /\ (forall q : path,
        fst (validate_path p must_exist create fs) = Ok q ->
        q = p
        /\ (must_exist = true ->
            exists_ (snd (validate_path p must_exist create fs)) p = true))
  /\ (create = false ->
      snd (validate_path p must_exist create fs) = fs
      /\ fst (validate_path p must_exist create fs)
         = if must_exist && negb (exists_ fs p)
           then Raise (FaviconNotFoundError p)
           else Ok p).
Proof.
  splits.
  - apply validate_path_grows.
  - apply grows_same_files, validate_path_grows.
  - intros q. unfold validate_path.
    destruct (if create then _ else _) as [[u|e] fs1]; [|discriminate].
    destruct (must_exist && negb (exists_ fs1 p)) eqn:Hme; [discriminate|].
    cbn [fst snd]. intros [= <-]. split; [reflexivity|]. intros ->.
    simpl in Hme. destruct (exists_ fs1 p); [reflexivity|discriminate].
  - intros ->. unfold validate_path.
    destruct (must_exist && negb (exists_ fs p)); split; reflexivity.
Qed.

(** X2: with [create] set, a path whose parent is missing gets its parent
    made, together with the directories above it that are missing, provided
    no file stands in the way; the path itself is still not made, so with
    [must_exist] the call then raises for it. *)
Theorem validate_path_creates_missing_parents (p : path) (must_exist : bool)
  (fs : FS) :
  exists_ fs p = false ->
  exists_ fs (parent p) = false ->
  (forall k q : path, parent p = (k ++ q)%list -> is_file fs q = false) ->
  is_dir (snd (validate_path p must_exist true fs)) (parent p) = true
  /\ exists_ (snd (validate_path p must_exist true fs)) p = false
  /\ fst (validate_path p must_exist true fs)
     = if must_exist then Raise (FaviconNotFoundError p) else Ok p.
Proof.
  intros Hp Hpar Hclear.
  assert (Hmk : forall (d : path) (ok : bool) (fs0 : FS),
             exists_ fs0 d = false ->
             (forall k q : path, d = (k ++ q)%list -> is_file fs0 q = false) ->
             fst (mkdir_parents ok d fs0) = Ok tt).
  { induction d as [|x d IH]; intros ok fs0 Hd Hfiles; [discriminate|].
    cbn [mkdir_parents]. unfold os_mkdir at 1.
    unfold exists_ in Hd. destruct (stat fs0 (x :: d)) eqn:Hx; [discriminate|].
    cbn [parent].
    destruct (stat fs0 d) as [[|b]|] eqn:Hsd.
    - reflexivity.
    - specialize (Hfiles [x] d eq_refl). unfold is_file in Hfiles.
      rewrite Hsd in Hfiles. discriminate.
    - assert (Hd' : exists_ fs0 d = false) by (unfold exists_; rewrite Hsd; reflexivity).
      assert (Hfiles' : forall k q : path, d = (k ++ q)%list -> is_file fs0 q = false).
      { intros k q ->. apply (Hfiles (x :: k) q). reflexivity. }
      pose proof (IH true fs0 Hd' Hfiles') as Hrec.
      pose proof (mkdir_parents_ok_is_dir d true fs0) as Hdir.
      pose proof (mkdir_parents_longer d true fs0 (x :: d)) as Hlong.
      destruct (mkdir_parents true d fs0) as [[[]|e] fs1]; [|discriminate].
      specialize (Hdir fs1 eq_refl). cbn [snd] in Hlong.
      assert (Hx1 : stat fs1 (x :: d) = None).
      { rewrite <- Hx. apply Hlong. simpl. lia. }
      unfold mkdir, os_mkdir. rewrite Hx1. cbn [parent].
      unfold is_dir in Hdir. destruct (stat fs1 d) as [[|b]|]; try discriminate.
      reflexivity. }
  destruct p as [|x d]; [discriminate|]. cbn [parent] in *.
  assert (Hnd : is_dir fs (x :: d) = false).
  { destruct (is_dir fs (x :: d)) eqn:H; [|reflexivity].
    apply is_dir_exists in H. congruence. }
  unfold validate_path. cbn [parent].
  rewrite is_dir_and_absent, Hnd, Hpar. cbn [negb andb].
  pose proof (Hmk d false fs Hpar Hclear) as Hok.
  pose proof (mkdir_parents_ok_is_dir d false fs) as Hdir.
  pose proof (mkdir_parents_exists_longer d (x :: d) false fs) as Hlong.
  destruct (mkdir_parents false d fs) as [[[]|e] fs1]; [|discriminate].
  specialize (Hdir fs1 eq_refl). cbn [snd] in Hlong.
  assert (Hp1 : exists_ fs1 (x :: d) = false).
  { rewrite Hlong by (simpl; lia). exact Hp. }
  rewrite Hp1. destruct must_exist; cbn [negb andb fst snd]; auto.
Qed.

(** X3: after a call that returned, the same call again returns the same path
    and changes nothing; so does the same call on any disk that has since
    only gained directories. *)
Theorem validate_path_is_idempotent (p : path) (must_exist create : bool)
  (fs : FS) :
  is_ok (fst (validate_path p must_exist create fs)) = true ->
  validate_path p must_exist create (snd (validate_path p must_exist create fs))
  = validate_path p must_exist create fs
  /\ forall fs' : FS,
       grows_by_dirs (snd (validate_path p must_exist create fs)) fs' ->
       validate_path p must_exist create fs' = (Ok p, fs').
Proof.
  destruct (validate_path p must_exist create fs) as [[q|e] fs1] eqn:Hrun;
    [|discriminate].
  intros _. cbn [snd]. split.
  - rewrite (validate_path_stable _ _ _ _ _ _ _ Hrun (grows_refl fs1)).
    apply validate_path_ok in Hrun as ->. reflexivity.
  - intros fs' Hg. apply (validate_path_stable _ _ _ _ _ _ _ Hrun Hg).
Qed.

End ValidatePathMore.

Lemma validate_path_creates_missing_parents_witness :
  is_dir (snd (validate_path (mkpath ["site"; "icons"; "fav"]) false true
                 Demo.disk0))
    (parent (mkpath ["site"; "icons"; "fav"])) = true
  /\ exists_ (snd (validate_path (mkpath ["site"; "icons"; "fav"]) false true
                     Demo.disk0))
       (mkpath ["site"; "icons"; "fav"]) = false
  /\ fst (validate_path (mkpath ["site"; "icons"; "fav"]) false true Demo.disk0)
     = if false then Raise (FaviconNotFoundError (mkpath ["site"; "icons"; "fav"]))
       else Ok (mkpath ["site"; "icons"; "fav"]).
Proof.
  apply (validate_path_creates_missing_parents
           (mkpath ["site"; "icons"; "fav"]) false Demo.disk0).
  - vm_compute. reflexivity.
  - vm_compute. reflexivity.
  - intros k q Hsplit. vm_compute in Hsplit.
    destruct k as [|a [|b [|c k]]]; simpl in Hsplit.
    + subst q. vm_compute. reflexivity.
    + injection Hsplit as _ <-. vm_compute. reflexivity.
    + injection Hsplit as _ _ <-. vm_compute. reflexivity.
    + discriminate Hsplit.
Defined.

Lemma validate_path_is_idempotent_witness :
  validate_path (mkpath ["site"; "icons"]) false true
    (snd (validate_path (mkpath ["site"; "icons"]) false true Demo.disk0))
  = validate_path (mkpath ["site"; "icons"]) false true Demo.disk0
  /\ forall fs' : FS,
       grows_by_dirs
         (snd (validate_path (mkpath ["site"; "icons"]) false true Demo.disk0))
         fs' ->
       validate_path (mkpath ["site"; "icons"]) false true fs'
       = (Ok (mkpath ["site"; "icons"]), fs').
Proof.
  apply (validate_path_is_idempotent (mkpath ["site"; "icons"]) false true
           Demo.disk0).
  vm_compute. reflexivity.
Defined.

(** ** [svg_to_png], continued *)

Section SvgToPngMore.

Context `{E : Env}.

Lemma stat_insert_ne (fs : FS) (p q : path) (n : node) :
  p <> q -> stat (<[p := n]> fs) q = stat fs q.
Proof.
  intros Hne. unfold stat. destruct q as [|x d]; [reflexivity|].
  apply lookup_insert_ne. exact Hne.
Qed.

Lemma stat_insert_eq (fs : FS) (p : path) (n : node) :
  p <> [] -> stat (<[p := n]> fs) p = Some n.
Proof.
  intros Hne. unfold stat. destruct p as [|x d]; [congruence|].
  apply lookup_insert_eq.
Qed.

(** [mkstemp] on a name that is free, in a directory that exists. *)
Lemma mkstemp_fresh (sfx : string) (fs : FS) :
  exists_ fs (mkstemp_name fs sfx) = false ->
  is_dir fs (parent (mkstemp_name fs sfx)) = true ->
  mkstemp_name fs sfx <> []
  /\ mkstemp sfx fs
     = (Ok (mkstemp_name fs sfx), <[mkstemp_name fs sfx := File []]> fs).
Proof.
  unfold mkstemp, write_bytes, exists_, is_dir.
  set (tmp := mkstemp_name fs sfx).
  destruct (stat fs tmp) eqn:Ht; [discriminate|]. intros _.
  destruct (stat fs (parent tmp)) as [[|b]|]; try discriminate. intros _.
  split; [|reflexivity]. intros Hnil. rewrite Hnil in Ht. discriminate.
Qed.

(** Writing to a path that is a file replaces its content. *)
Lemma write_bytes_over_file (p : path) (b c : bytes) (fs : FS) :
  p <> [] ->
  write_bytes p b (<[p := File c]> fs) = (Ok tt, <[p := File b]> fs).
Proof.
  intros Hne. unfold write_bytes. rewrite stat_insert_eq by exact Hne.
  rewrite insert_insert_eq. reflexivity.
Qed.

(** [svg_to_png] once [mkstemp] has made its file. *)
Lemma svg_to_png_fresh (src : path) (fs : FS) :
  exists_ fs (mkstemp_name fs ".png") = false ->
  is_dir fs (parent (mkstemp_name fs ".png")) = true ->
  svg_to_png src fs =
  match read_bytes src (<[mkstemp_name fs ".png" := File []]> fs) with
  | Raise e => (Raise e, <[mkstemp_name fs ".png" := File []]> fs)
  | Ok svg =>
      match svg2png svg with
      | Raise e => (Raise e, <[mkstemp_name fs ".png" := File []]> fs)
      | Ok data =>
          (Ok (mkstemp_name fs ".png"),
           <[mkstemp_name fs ".png" := File data]> fs)
      end
  end.
Proof.
  intros Hfree Hdir. unfold svg_to_png.
  destruct (mkstemp_fresh ".png" fs Hfree Hdir) as [Hne ->].
  destruct (read_bytes src _) as [svg|e]; [|reflexivity].
  destruct (svg2png svg) as [data|e]; [|reflexivity].
  rewrite write_bytes_over_file by exact Hne. reflexivity.
Qed.

(** X4: when the temporary name is free and its directory exists, a readable
    source that the rasterizer accepts is always converted: [svg_to_png]
    returns the temporary path, that file holds exactly the rasterizer's
    output for the source's bytes, nothing else on the disk changes, and the
    source can still be read as before. *)
Theorem svg_to_png_rasterizes_into_fresh_file (src : path) (svg data : bytes)
  (fs : FS) :
  exists_ fs (mkstemp_name fs ".png") = false ->
  is_dir fs (parent (mkstemp_name fs ".png")) = true ->
  read_bytes src fs = Ok svg ->
  svg2png svg = Ok data ->
  svg_to_png src fs
  = (Ok (mkstemp_name fs ".png"), <[mkstemp_name fs ".png" := File data]> fs)
  /\ read_bytes (mkstemp_name fs ".png") (snd (svg_to_png src fs)) = Ok data
  /\ read_bytes src (snd (svg_to_png src fs)) = Ok svg.
Proof.
  intros Hfree Hdir Hread Hsvg.
  destruct (mkstemp_fresh ".png" fs Hfree Hdir) as [Hne _].
  assert (Hsrc : mkstemp_name fs ".png" <> src).
  { intros Heq. rewrite <- Heq in Hread. unfold read_bytes in Hread.
    unfold exists_ in Hfree.
    destruct (stat fs (mkstemp_name fs ".png")); discriminate. }
  assert (Hread1 : read_bytes src (<[mkstemp_name fs ".png" := File []]> fs)
                   = Ok svg).
  { unfold read_bytes. rewrite stat_insert_ne by exact Hsrc. exact Hread. }
  rewrite (svg_to_png_fresh src fs Hfree Hdir), Hread1, Hsvg. cbn [snd].
  splits; [reflexivity| |].
  - unfold read_bytes. rewrite stat_insert_eq by exact Hne. reflexivity.
  - unfold read_bytes. rewrite stat_insert_ne by exact Hsrc.
    fold (read_bytes src fs). exact Hread.
Qed.

(** X5: when [svg_to_png] raises after [mkstemp] has made its file, the
    temporary file is left behind, empty: the disk is the one it was given
    plus that file.  The exception is the one from reading the source or the
    one from the rasterizer. *)
Theorem svg_to_png_failure_leaves_temp_file (src : path) (fs : FS) :
  exists_ fs (mkstemp_name fs ".png") = false ->
  is_dir fs (parent (mkstemp_name fs ".png")) = true ->
  is_ok (fst (svg_to_png src fs)) = false ->
  snd (svg_to_png src fs) = <[mkstemp_name fs ".png" := File []]> fs
  /\ read_bytes (mkstemp_name fs ".png") (snd (svg_to_png src fs)) = Ok []
  /\ exists e : exn,
       fst (svg_to_png src fs) = Raise e
       /\ (read_bytes src (snd (svg_to_png src fs)) = Raise e
           \/ exists svg : bytes,
                read_bytes src (snd (svg_to_png src fs)) = Ok svg
                /\ svg2png svg = Raise e).
Proof.
  intros Hfree Hdir.
  destruct (mkstemp_fresh ".png" fs Hfree Hdir) as [Hne _].
  rewrite (svg_to_png_fresh src fs Hfree Hdir).
  assert (Htmp : read_bytes (mkstemp_name fs ".png")
                   (<[mkstemp_name fs ".png" := File []]> fs) = Ok []).
  { unfold read_bytes. rewrite stat_insert_eq by exact Hne. reflexivity. }
  destruct (read_bytes src _) as [svg|e] eqn:Hread.
  - destruct (svg2png svg) as [data|e] eqn:Hsvg; [discriminate|].
    intros _. cbn [fst snd]. splits; [reflexivity|exact Htmp|].
    exists e. split; [reflexivity|]. right. exists svg. auto.
  - intros _. cbn [fst snd]. splits; [reflexivity|exact Htmp|].
    exists e. auto.
Qed.

End SvgToPngMore.

Lemma svg_to_png_rasterizes_into_fresh_file_witness :
  svg_to_png (E := Demo.env) (mkpath ["srv"; "logo.svg"]) Demo.disk0
  = (Ok (mkstemp_name (Env := Demo.env) Demo.disk0 ".png"),
     <[mkstemp_name (Env := Demo.env) Demo.disk0 ".png"
       := File (Byte.x89 :: Demo.svg_data)]> Demo.disk0)
  /\ read_bytes (mkstemp_name (Env := Demo.env) Demo.disk0 ".png")
       (snd (svg_to_png (E := Demo.env) (mkpath ["srv"; "logo.svg"])
               Demo.disk0))
     = Ok (Byte.x89 :: Demo.svg_data)
  /\ read_bytes (mkpath ["srv"; "logo.svg"])
       (snd (svg_to_png (E := Demo.env) (mkpath ["srv"; "logo.svg"])
               Demo.disk0))
     = Ok Demo.svg_data.
Proof.
  apply (svg_to_png_rasterizes_into_fresh_file (E := Demo.env)
           (mkpath ["srv"; "logo.svg"]) Demo.svg_data
           (Byte.x89 :: Demo.svg_data) Demo.disk0).
  - vm_compute. reflexivity.
  - vm_compute. reflexivity.
  - vm_compute. reflexivity.
  - vm_compute. reflexivity.
Defined.

Lemma svg_to_png_failure_leaves_temp_file_witness :
  snd (svg_to_png (E := Demo.env) (mkpath ["srv"; "missing.svg"]) Demo.disk0)
  = <[mkstemp_name (Env := Demo.env) Demo.disk0 ".png" := File []]> Demo.disk0
  /\ read_bytes (mkstemp_name (Env := Demo.env) Demo.disk0 ".png")
       (snd (svg_to_png (E := Demo.env) (mkpath ["srv"; "missing.svg"])
               Demo.disk0))
     = Ok []
  /\ exists e : exn,
       fst (svg_to_png (E := Demo.env) (mkpath ["srv"; "missing.svg"])
              Demo.disk0) = Raise e
       /\ (read_bytes (mkpath ["srv"; "missing.svg"])
             (snd (svg_to_png (E := Demo.env) (mkpath ["srv"; "missing.svg"])
                     Demo.disk0)) = Raise e
           \/ exists svg : bytes,
                read_bytes (mkpath ["srv"; "missing.svg"])
                  (snd (svg_to_png (E := Demo.env)
                          (mkpath ["srv"; "missing.svg"]) Demo.disk0))
                = Ok svg
                /\ svg2png (Env := Demo.env) svg = Raise e).
Proof.
  apply (svg_to_png_failure_leaves_temp_file (E := Demo.env)
           (mkpath ["srv"; "missing.svg"]) Demo.disk0).
  - vm_compute. reflexivity.
  - vm_compute. reflexivity.
  - vm_compute. reflexivity.
Defined.

(** ** Validation, continued *)

Section ValidationMore.

Context `{E : Env}.

(** A validation that passed passes again and changes nothing. *)
Lemma validate_again (w : World) :
  fst (_validate w) = Ok tt ->
  _validate (snd (_validate w)) = (Ok tt, snd (_validate w)).
Proof.
  rewrite (validate_unfold w). destruct w as [o fs log]. simpl.
  rewrite validate_path_plain.
  destruct (exists_ fs (_source o)) eqn:Hsrc; [|discriminate].
  destruct (validate_path (_output_directory o) true true fs)
    as [[out|e] fs2] eqn:Hout; [|discriminate].
  pose proof (validate_path_grows (_output_directory o) true true fs) as Hg.
  rewrite Hout in Hg. cbn [snd] in Hg.
  pose proof (validate_path_ok _ _ _ _ _ _ Hout) as ->.
  destruct (bool_decide _) eqn:Hsup; [|discriminate].
  intros _. cbn [snd]. rewrite validate_unfold. simpl.
  rewrite validate_path_plain, (grows_exists _ _ _ Hg Hsrc).
  rewrite (validate_path_stable _ _ _ _ _ _ _ Hout (grows_refl fs2)).
  rewrite Hsup. destruct o; reflexivity.
Qed.

(** X6: entering the context a second time, after a first time that passed,
    passes as well and changes nothing: neither the disk nor the instance.
    The same holds for the asynchronous context. *)
Theorem entering_again_changes_nothing (w : World) :
  fst (__enter__ w) = Ok tt ->
  __enter__ (snd (__enter__ w)) = (Ok tt, snd (__enter__ w))
  /\ __aenter__ (snd (__aenter__ w)) = (Ok tt, snd (__aenter__ w))
  /\ _validate (snd (_validate w)) = (Ok tt, snd (_validate w)).
Proof.
  intros Henter.
  assert (Hval : fst (_validate w) = Ok tt).
  { revert Henter. unfold __enter__, bind.
    destruct (_validate w) as [[[]|e] w1]; [reflexivity|discriminate]. }
  pose proof (validate_again w Hval) as Hagain.
  assert (Hbind : forall g : generate_binding,
             let w2 := mkWorld (set_generate g (obj (snd (_validate w))))
                         (disk (snd (_validate w)))
                         (attempts (snd (_validate w))) in
             _validate w2 = (Ok tt, w2)).
  { intros g. cbv zeta. rewrite validate_unfold in Hagain |- *.
    destruct (snd (_validate w)) as [o1 fs1 log1]. cbn [obj disk attempts] in *.
    change (_source (set_generate g o1)) with (_source o1).
    change (_output_directory (set_generate g o1)) with (_output_directory o1).
    cbv zeta in Hagain.
    destruct (validate_path (_source o1) true false fs1) as [[src|e] fs2];
      [|discriminate].
    destruct (validate_path (_output_directory o1) true true fs2)
      as [[out|e] fs3]; [|discriminate].
    cbv zeta. destruct (bool_decide _); [|discriminate].
    injection Hagain as Hobj Hdisk. subst fs3.
    f_equal. f_equal. rewrite <- Hobj at 2. destruct o1; reflexivity. }
  splits.
  - unfold __enter__, bind, modify_self.
    destruct (_validate w) as [[[]|e] w1]; [|discriminate]. cbn [snd] in *.
    cbn [obj disk attempts]. rewrite (Hbind bound_sgenerate). reflexivity.
  - unfold __aenter__, bind, modify_self.
    destruct (_validate w) as [[[]|e] w1]; [|discriminate]. cbn [snd] in *.
    cbn [obj disk attempts]. rewrite (Hbind bound_agenerate). reflexivity.
  - exact Hagain.
Qed.

End ValidationMore.

Lemma entering_again_changes_nothing_witness :
  __enter__ (E := Demo.env_with Demo.catalog)
    (snd (__enter__ (Demo.fresh_world Demo.catalog Demo.disk0)))
  = (Ok tt, snd (__enter__ (Demo.fresh_world Demo.catalog Demo.disk0)))
  /\ __aenter__ (E := Demo.env_with Demo.catalog)
       (snd (__aenter__ (Demo.fresh_world Demo.catalog Demo.disk0)))
     = (Ok tt, snd (__aenter__ (Demo.fresh_world Demo.catalog Demo.disk0)))
  /\ _validate (E := Demo.env_with Demo.catalog)
       (snd (_validate (Demo.fresh_world Demo.catalog Demo.disk0)))
     = (Ok tt, snd (_validate (Demo.fresh_world Demo.catalog Demo.disk0))).
Proof.
  apply (entering_again_changes_nothing (E := Demo.env_with Demo.catalog)
           (Demo.fresh_world Demo.catalog Demo.disk0)).
  vm_compute. reflexivity.
Defined.

(** ** The life cycle, continued *)

Section LifecycleMore.

Context `{E : Env}.

Lemma close_temp_source_unfold (w : World) (tmp : path) :
  _temp_source (obj w) = Some tmp ->
  _close_temp_source w =
  match stat (disk w) tmp with
  | Some (File _) => (Ok tt, mkWorld (obj w) (delete tmp (disk w)) (attempts w))
  | Some Dir => (Raise IsADirectoryError, w)
  | None => (Ok tt, w)
  end.
Proof.
  intros Htmp. unfold _close_temp_source. unfold_m. rewrite Htmp.
  unfold unlink. destruct w as [o fs log]. simpl.
  destruct (stat fs tmp) as [[|b]|]; reflexivity.
Qed.

(** X7: [_close_temp_source] on an instance whose [_temp_source] is set: a
    temporary file that is there is deleted; one that is already gone is not
    an error; a directory under that name makes it raise
    [IsADirectoryError] and is left in place.  Nothing else on the disk and
    nothing of the instance changes, after a call that returned the
    temporary path does not exist, and a second call does what the first
    did. *)
Theorem close_temp_source_removes_only_the_temp_file (w : World) (tmp : path) :
  _temp_source (obj w) = Some tmp ->
  fst (_close_temp_source w)
  = (if is_dir (disk w) tmp then Raise IsADirectoryError else Ok tt)
  /\ disk (snd (_close_temp_source w))
     = (if is_file (disk w) tmp then delete tmp (disk w) else disk w)
  /\ obj (snd (_close_temp_source w)) = obj w
  /\ attempts (snd (_close_temp_source w)) = attempts w
  /\ (forall q : path,
        q <> tmp -> disk (snd (_close_temp_source w)) !! q = disk w !! q)
  /\ (is_dir (disk w) tmp = false ->
      exists_ (disk (snd (_close_temp_source w))) tmp = false)
  /\ fst (_close_temp_source (snd (_close_temp_source w)))
     = fst (_close_temp_source w)
  /\ snd (_close_temp_source (snd (_close_temp_source w)))
     = snd (_close_temp_source w).
Proof.
  intros Htmp. rewrite (close_temp_source_unfold w tmp Htmp).
  unfold is_dir, is_file, exists_.
  destruct (stat (disk w) tmp) as [[|b]|] eqn:Hstat; cbn [fst snd disk obj attempts].
  - rewrite (close_temp_source_unfold w tmp Htmp), Hstat.
    splits; try reflexivity. discriminate.
  - assert (Hne : tmp <> []) by (intros ->; discriminate).
    assert (Hgone : stat (delete tmp (disk w)) tmp = None).
    { unfold stat. destruct tmp as [|x d]; [congruence|].
      apply lookup_delete_eq. }
    rewrite (close_temp_source_unfold
               (mkWorld (obj w) (delete tmp (disk w)) (attempts w)) tmp Htmp).
    cbn [disk obj attempts].
    rewrite Hgone. splits; try reflexivity.
    intros q Hq. apply lookup_delete_ne. congruence.
  - rewrite (close_temp_source_unfold w tmp Htmp), Hstat.
    splits; try reflexivity.
Qed.

(** X8: [__enter__] and [__aenter__] run the same validation, with the same
    outcome and the same effect on the disk; they differ in what they bind
    [generate] to, and they bind it only when the validation passed: an
    entry that raises leaves the binding the instance had. *)
Theorem entering_binds_generate_on_success (w : World) :
  fst (__aenter__ w) = fst (__enter__ w)
  /\ disk (snd (__aenter__ w)) = disk (snd (__enter__ w))
  /\ generate (obj (snd (__enter__ w)))
     = (if is_ok (fst (__enter__ w)) then bound_sgenerate
        else generate (obj w))
  /\ generate (obj (snd (__aenter__ w)))
     = (if is_ok (fst (__aenter__ w)) then bound_agenerate
        else generate (obj w))
  /\ (forall g : generate_binding,
        set_generate g (obj (snd (__aenter__ w)))
        = set_generate g (obj (snd (__enter__ w))))
  /\ fst (__enter__ w) = fst (_validate w)
  /\ disk (snd (__enter__ w)) = disk (snd (_validate w)).
Proof.
  unfold __enter__, __aenter__, bind, modify_self.
  destruct (validate_frame w) as (Hobj & _ & _).
  destruct (_validate w) as [[[]|e] w1]; cbn [fst snd obj disk is_ok] in *.
  - splits; reflexivity.
  - splits; try reflexivity. all: rewrite Hobj; reflexivity.
Qed.

Lemma only_validation_flag (w : World) :
  _validated (obj (snd (_validate w)))
  = _validated (obj w) || is_ok (fst (_validate w)).
Proof.
  rewrite validate_unfold. destruct w as [o fs log]. simpl.
  destruct (validate_path (_source o) true false fs) as [[src|e] fs1];
    [|simpl; rewrite orb_false_r; reflexivity].
  destruct (validate_path (_output_directory o) true true fs1)
    as [[out|e] fs2]; [|simpl; rewrite orb_false_r; reflexivity].
  destruct (bool_decide _); simpl;
    [rewrite orb_true_r|rewrite orb_false_r]; reflexivity.
Qed.

Lemma only_completed_validated (o o' : Favicons) :
  only_completed_changed o o' -> _validated o' = _validated o.
Proof. intros ->. reflexivity. Qed.

(** X9: the [_validated] flag is set by a validation that passes and is never
    cleared: after [_validate], [__enter__] or [__aenter__] it is what it
    was, or true when the validation passed; [__exit__] and [__aexit__]
    leave it alone; after [sgenerate] and [agenerate] it is what it was, or
    true when the validation they started with passed, whatever the renders
    did. *)
Theorem validated_flag_is_never_cleared (fuel : nat) (w : World) :
  (2 * List.length (_formats (obj w)) + 1 <= fuel)%nat ->
  _validated (obj (snd (_validate w)))
  = _validated (obj w) || is_ok (fst (_validate w))
  /\ _validated (obj (snd (__enter__ w)))
     = _validated (obj w) || is_ok (fst (__enter__ w))
  /\ _validated (obj (snd (__aenter__ w)))
     = _validated (obj w) || is_ok (fst (__aenter__ w))
  /\ _validated (obj (snd (__exit__ w))) = _validated (obj w)
  /\ _validated (obj (snd (__aexit__ w))) = _validated (obj w)
  /\ _validated (obj (snd (sgenerate w)))
     = _validated (obj w) || is_ok (fst (ensure_validated w))
  /\ option_map (fun rw => _validated (obj (snd rw))) (agenerate fuel w)
     = Some (_validated (obj w) || is_ok (fst (ensure_validated w))).
Proof.
  intros Hfuel.
  assert (Hens : _validated (obj (snd (ensure_validated w)))
                 = _validated (obj w) || is_ok (fst (ensure_validated w))).
  { rewrite ensure_validated_unfold.
    destruct (_validated (obj w)) eqn:Hv; [simpl; exact Hv|].
    rewrite only_validation_flag, Hv. reflexivity. }
  pose proof (only_validation_flag w) as Hval.
  splits.
  - exact Hval.
  - unfold __enter__, bind, modify_self.
    destruct (_validate w) as [[[]|e] w1]; exact Hval.
  - unfold __aenter__, bind, modify_self.
    destruct (_validate w) as [[[]|e] w1]; exact Hval.
  - rewrite exit_keeps_instance. reflexivity.
  - unfold __aexit__. change _close_temp_source with __exit__.
    rewrite exit_keeps_instance. reflexivity.
  - rewrite sgenerate_unfold.
    destruct (ensure_validated w) as [[[]|e] w1]; cbn [fst snd] in *.
    + destruct (for_each_summary (_formats (obj w1)) w1) as (Ho & _ & _).
      rewrite (only_completed_validated _ _ Ho). exact Hens.
    + exact Hens.
  - rewrite agenerate_settles by exact Hfuel.
    destruct (ensure_validated w) as [[[]|e] w1]; cbn [fst snd option_map] in *.
    + destruct (run_all_summary (_formats (obj w1)) w1) as (Ho & _).
      rewrite (only_completed_validated _ _ Ho), Hens. reflexivity.
    + rewrite Hens. reflexivity.
Qed.

End LifecycleMore.

Lemma close_temp_source_removes_only_the_temp_file_witness :
  fst (_close_temp_source (E := Demo.env) Demo.world_temp)
  = (if is_dir (disk Demo.world_temp) (mkpath ["tmp"; "tmpfav.png"])
     then Raise IsADirectoryError else Ok tt)
  /\ disk (snd (_close_temp_source (E := Demo.env) Demo.world_temp))
     = (if is_file (disk Demo.world_temp) (mkpath ["tmp"; "tmpfav.png"])
        then delete (mkpath ["tmp"; "tmpfav.png"]) (disk Demo.world_temp)
        else disk Demo.world_temp)
  /\ obj (snd (_close_temp_source (E := Demo.env) Demo.world_temp))
     = obj Demo.world_temp
  /\ attempts (snd (_close_temp_source (E := Demo.env) Demo.world_temp))
     = attempts Demo.world_temp
  /\ (forall q : path,
        q <> mkpath ["tmp"; "tmpfav.png"] ->
        disk (snd (_close_temp_source (E := Demo.env) Demo.world_temp)) !! q
        = disk Demo.world_temp !! q)
  /\ (is_dir (disk Demo.world_temp) (mkpath ["tmp"; "tmpfav.png"]) = false ->
      exists_ (disk (snd (_close_temp_source (E := Demo.env) Demo.world_temp)))
        (mkpath ["tmp"; "tmpfav.png"]) = false)
  /\ fst (_close_temp_source (E := Demo.env)
            (snd (_close_temp_source (E := Demo.env) Demo.world_temp)))
     = fst (_close_temp_source (E := Demo.env) Demo.world_temp)
  /\ snd (_close_temp_source (E := Demo.env)
            (snd (_close_temp_source (E := Demo.env) Demo.world_temp)))
     = snd (_close_temp_source (E := Demo.env) Demo.world_temp).
Proof.
  apply (close_temp_source_removes_only_the_temp_file (E := Demo.env)
           Demo.world_temp (mkpath ["tmp"; "tmpfav.png"])).
  reflexivity.
Defined.

(** The temporary file is deleted when it is there, and its absence is not
    an error. *)
Example close_temp_source_on_the_demo_disks :
  is_file (disk Demo.world_temp) (mkpath ["tmp"; "tmpfav.png"]) = true
  /\ fst (_close_temp_source (E := Demo.env) Demo.world_temp) = Ok tt
  /\ exists_ (disk (snd (_close_temp_source (E := Demo.env) Demo.world_temp)))
       (mkpath ["tmp"; "tmpfav.png"]) = false
  /\ exists_ (disk Demo.world_temp_gone) (mkpath ["tmp"; "tmpfav.png"]) = false
  /\ fst (_close_temp_source (E := Demo.env) Demo.world_temp_gone) = Ok tt.
Proof. splits; vm_compute; reflexivity. Qed.

Lemma validated_flag_is_never_cleared_witness :
  _validated (obj (snd (_validate (E := Demo.env) Demo.world0)))
  = _validated (obj Demo.world0)
    || is_ok (fst (_validate (E := Demo.env) Demo.world0))
  /\ _validated (obj (snd (__enter__ (E := Demo.env) Demo.world0)))
     = _validated (obj Demo.world0)
       || is_ok (fst (__enter__ (E := Demo.env) Demo.world0))
  /\ _validated (obj (snd (__aenter__ (E := Demo.env) Demo.world0)))
     = _validated (obj Demo.world0)
       || is_ok (fst (__aenter__ (E := Demo.env) Demo.world0))
  /\ _validated (obj (snd (__exit__ (E := Demo.env) Demo.world0)))
     = _validated (obj Demo.world0)
  /\ _validated (obj (snd (__aexit__ (E := Demo.env) Demo.world0)))
     = _validated (obj Demo.world0)
  /\ _validated (obj (snd (sgenerate (E := Demo.env) Demo.world0)))
     = _validated (obj Demo.world0)
       || is_ok (fst (ensure_validated (E := Demo.env) Demo.world0))
  /\ option_map (fun rw => _validated (obj (snd rw)))
       (agenerate (E := Demo.env) 7 Demo.world0)
     = Some (_validated (obj Demo.world0)
             || is_ok (fst (ensure_validated (E := Demo.env) Demo.world0))).
Proof.
  apply (validated_flag_is_never_cleared (E := Demo.env) 7 Demo.world0).
  vm_compute. lia.
Defined.

(** ** Generation, continued *)

Section GenerationMore.

Context `{E : Env}.

Lemma only_completed_output_directory (o o' : Favicons) :
  only_completed_changed o o' -> output_directory o' = output_directory o.
Proof. intros ->. reflexivity. Qed.

Lemma only_completed_output_paths (o o' : Favicons) :
  only_completed_changed o o' -> output_paths o' = output_paths o.
Proof. intros ->. reflexivity. Qed.

(** What a sequential loop that ran to its end has done. *)
Lemma for_each_ok (fmts : list FaviconProperties) :
  forall w : World,
    fst (for_each fmts w) = Ok tt ->
    attempts (snd (for_each fmts w)) = (attempts w ++ fmts)%list
    /\ completed (obj (snd (for_each fmts w)))
       = completed (obj w) + Z.of_nat (List.length fmts).
Proof.
  induction fmts as [|fp rest IH]; intros w; simpl.
  - intros _. rewrite app_nil_r. split; [reflexivity|lia].
  - unfold bind.
    destruct (generate_single_summary fp w) as (_ & Hc & Hl & _).
    destruct (_generate_single fp w) as [[[]|e] w1]; [|discriminate].
    cbn [fst snd is_ok] in *. intros Hrest.
    destruct (IH w1 Hrest) as [Hl' Hc']. split.
    + rewrite Hl', Hl, <- app_assoc. reflexivity.
    + rewrite Hc', Hc. lia.
Qed.

(** A sequential loop that raised: the renders before the failing one ran
    to their end, and the loop ended with the failing one. *)
Lemma for_each_failure (fmts : list FaviconProperties) :
  forall (w : World) (e : exn),
    fst (for_each fmts w) = Raise e ->
    exists (done : list FaviconProperties) (fp : FaviconProperties)
           (rest : list FaviconProperties),
      fmts = (done ++ fp :: rest)%list
      /\ fst (for_each done w) = Ok tt
      /\ for_each fmts w = _generate_single fp (snd (for_each done w))
      /\ fst (_generate_single fp (snd (for_each done w))) = Raise e.
Proof.
  induction fmts as [|fp rest IH]; intros w e; simpl; [discriminate|].
  unfold bind. destruct (_generate_single fp w) as [[[]|e1] w1] eqn:Hone.
  - intros Hrest. destruct (IH w1 e Hrest) as (done & fp' & rest' & -> & Hok & Hrun & Hfail).
    exists (fp :: done), fp', rest'. simpl. unfold bind. rewrite Hone.
    auto.
  - simpl. intros [= ->]. exists [], fp, rest. simpl. rewrite Hone. auto.
Qed.

(** X10: [sgenerate] is fail-fast: when the validation has passed and a render
    raises, the descriptors before it were rendered, in catalog order, and
    each counted; the failing one was entered and not counted; the ones
    after it were never entered; and the exception is the one of that
    render. *)
Theorem sgenerate_stops_at_first_failure (w : World) (e : exn) :
  fst (ensure_validated w) = Ok tt ->
  fst (sgenerate w) = Raise e ->
  exists (done : list FaviconProperties) (fp : FaviconProperties)
         (rest : list FaviconProperties),
    _formats (obj w) = (done ++ fp :: rest)%list
    /\ attempts (snd (sgenerate w)) = (attempts w ++ done ++ [fp])%list
    /\ completed (obj (snd (sgenerate w)))
       = completed (obj w) + Z.of_nat (List.length done)
    /\ fst (for_each done (snd (ensure_validated w))) = Ok tt
    /\ fst (_generate_single fp
              (snd (for_each done (snd (ensure_validated w))))) = Raise e.
Proof.
  rewrite sgenerate_unfold.
  destruct (ensure_validated_frame w) as (Hobj & Hlog & _).
  destruct (ensure_validated w) as [[[]|e0] w1]; [|discriminate].
  cbn [fst snd] in *. intros _ Hfail.
  pose proof (only_validation_formats _ _ Hobj) as Hfmts.
  pose proof (only_validation_completed _ _ Hobj) as Hcount.
  destruct (for_each_failure _ _ _ Hfail) as (done & fp & rest & Hsplit & Hok & Hrun & Hlast).
  exists done, fp, rest. rewrite Hrun.
  destruct (for_each_ok done w1 Hok) as [Hl Hc].
  destruct (generate_single_summary fp (snd (for_each done w1)))
    as (_ & Hc1 & Hl1 & _).
  rewrite Hlast in Hc1. cbn [is_ok] in Hc1.
  splits.
  - rewrite <- Hfmts. exact Hsplit.
  - rewrite Hl1, Hl, Hlog, <- app_assoc. reflexivity.
  - rewrite Hc1, Hc, Hcount. lia.
  - exact Hok.
  - exact Hlast.
Qed.

(** X11: neither entry point renders anything when the validation it starts
    with raises: it raises the same exception, no render is entered, the
    counter stays, and no file is added, removed or changed.  For
    [agenerate] this does not depend on the event loop: nothing is
    scheduled. *)
Theorem generation_gives_up_when_validation_fails (fuel : nat) (w : World)
  (e : exn) :
  fst (ensure_validated w) = Raise e ->
  fst (sgenerate w) = Raise e
  /\ agenerate fuel w = Some (sgenerate w)
  /\ _validated (obj w) = false
  /\ fst (_validate w) = Raise e
  /\ attempts (snd (sgenerate w)) = attempts w
  /\ completed (obj (snd (sgenerate w))) = completed (obj w)
  /\ same_files (disk w) (disk (snd (sgenerate w))).
Proof.
  intros Hfail. rewrite sgenerate_unfold. unfold agenerate.
  destruct (ensure_validated_frame w) as (Hobj & Hlog & Hgrow).
  pose proof (ensure_validated_unfold w) as Hunf.
  destruct (ensure_validated w) as [[[]|e0] w1]; [discriminate|].
  cbn [fst snd] in *. injection Hfail as ->.
  destruct (_validated (obj w)); [discriminate|].
  splits; try reflexivity.
  - rewrite <- Hunf. reflexivity.
  - exact Hlog.
  - apply (only_validation_completed _ _ Hobj).
  - apply grows_same_files, Hgrow.
Qed.

Lemma successes_failures (rs : list (result unit)) :
  successes rs + Z.of_nat (List.length (failures rs))
  = Z.of_nat (List.length rs).
Proof.
  induction rs as [|[[]|e] rs IH]; simpl List.length; cbn [successes failures];
    simpl List.length; lia.
Qed.

(** X12: [agenerate] counts every render that succeeded, also after one that
    raised: once the validation has passed, the counter grows by the number
    of descriptors of the catalog minus the number of renders that raised,
    whether [agenerate] itself raises or not. *)
Theorem agenerate_counts_every_success (fuel : nat) (w : World) :
  fst (ensure_validated w) = Ok tt ->
  (2 * List.length (_formats (obj w)) + 1 <= fuel)%nat ->
  option_map (fun rw => completed (obj (snd rw))) (agenerate fuel w)
  = Some (completed (obj w)
          + Z.of_nat (List.length (_formats (obj w)))
          - Z.of_nat
              (List.length
                 (failures
                    (fst (run_all (map _agenerate_single (_formats (obj w)))
                            (snd (ensure_validated w)))))))
  /\ option_map fst (agenerate fuel w)
     = Some (first_failure
               (fst (run_all (map _agenerate_single (_formats (obj w)))
                       (snd (ensure_validated w))))).
Proof.
  intros Hval Hfuel. rewrite agenerate_settles by exact Hfuel.
  destruct (ensure_validated_frame w) as (Hobj & _ & _).
  destruct (ensure_validated w) as [[[]|e0] w1]; [|discriminate].
  cbn [fst snd option_map] in *.
  pose proof (only_validation_formats _ _ Hobj) as Hfmts.
  pose proof (only_validation_completed _ _ Hobj) as Hcount.
  rewrite Hfmts.
  destruct (run_all_summary (_formats (obj w)) w1)
    as (_ & Hc & _ & _ & _ & Hlen).
  pose proof (successes_failures
                (fst (run_all (map _agenerate_single (_formats (obj w))) w1)))
    as Hsum.
  rewrite Hlen in Hsum. split; [|reflexivity].
  f_equal. rewrite Hc, Hcount. lia.
Qed.

End GenerationMore.

Lemma sgenerate_stops_at_first_failure_witness :
  exists (done : list (FaviconProperties (Env := Demo.env)))
         (fp : FaviconProperties (Env := Demo.env))
         (rest : list (FaviconProperties (Env := Demo.env))),
    _formats (obj Demo.world_blocked) = (done ++ fp :: rest)%list
    /\ attempts (snd (sgenerate (E := Demo.env) Demo.world_blocked))
       = (attempts Demo.world_blocked ++ done ++ [fp])%list
    /\ completed (obj (snd (sgenerate (E := Demo.env) Demo.world_blocked)))
       = completed (obj Demo.world_blocked) + Z.of_nat (List.length done)
    /\ fst (for_each done
              (snd (ensure_validated (E := Demo.env) Demo.world_blocked)))
       = Ok tt
    /\ fst (_generate_single fp
              (snd (for_each done
                      (snd (ensure_validated (E := Demo.env)
                              Demo.world_blocked)))))
       = Raise IsADirectoryError.
Proof.
  apply (sgenerate_stops_at_first_failure (E := Demo.env) Demo.world_blocked
           IsADirectoryError).
  - vm_compute. reflexivity.
  - vm_compute. reflexivity.
Defined.

Lemma generation_gives_up_when_validation_fails_witness :
  fst (sgenerate (E := Demo.env) Demo.world_txt)
  = Raise (FaviconNotSupportedError (mkpath ["srv"; "notes.txt"]))
  /\ agenerate (E := Demo.env) 0 Demo.world_txt
     = Some (sgenerate (E := Demo.env) Demo.world_txt)
  /\ _validated (obj Demo.world_txt) = false
  /\ fst (_validate (E := Demo.env) Demo.world_txt)
     = Raise (FaviconNotSupportedError (mkpath ["srv"; "notes.txt"]))
  /\ attempts (snd (sgenerate (E := Demo.env) Demo.world_txt))
     = attempts Demo.world_txt
  /\ completed (obj (snd (sgenerate (E := Demo.env) Demo.world_txt)))
     = completed (obj Demo.world_txt)
  /\ same_files (disk Demo.world_txt)
       (disk (snd (sgenerate (E := Demo.env) Demo.world_txt))).
Proof.
  apply (generation_gives_up_when_validation_fails (E := Demo.env) 0
           Demo.world_txt
           (FaviconNotSupportedError (mkpath ["srv"; "notes.txt"]))).
  vm_compute. reflexivity.
Defined.

Lemma agenerate_counts_every_success_witness :
  option_map (fun rw => completed (obj (snd rw)))
    (agenerate (E := Demo.env) 7 Demo.world_blocked)
  = Some (completed (obj Demo.world_blocked)
          + Z.of_nat (List.length (_formats (obj Demo.world_blocked)))
          - Z.of_nat
              (List.length
                 (failures
                    (fst (run_all
                            (map (_agenerate_single (E := Demo.env))
                               (_formats (obj Demo.world_blocked)))
                            (snd (ensure_validated (E := Demo.env)
                                    Demo.world_blocked)))))))
  /\ option_map fst (agenerate (E := Demo.env) 7 Demo.world_blocked)
     = Some (first_failure
               (fst (run_all
                       (map (_agenerate_single (E := Demo.env))
                          (_formats (obj Demo.world_blocked)))
                       (snd (ensure_validated (E := Demo.env)
                               Demo.world_blocked))))).
Proof.
  apply (agenerate_counts_every_success (E := Demo.env) 7 Demo.world_blocked).
  - vm_compute. reflexivity.
  - vm_compute. lia.
Defined.

(** On the disk with a directory at the second output path: the concurrent
    run raises and has counted two renders, the sequential one has counted
    one. *)
Example completed_after_a_failed_render :
  option_map (fun rw => completed (obj (snd rw)))
    (agenerate (E := Demo.env) 7 Demo.world_blocked) = Some 2
  /\ option_map fst (agenerate (E := Demo.env) 7 Demo.world_blocked)
     = Some (Raise IsADirectoryError)
  /\ completed (obj (snd (sgenerate (E := Demo.env) Demo.world_blocked))) = 1.
Proof. splits; vm_compute; reflexivity. Qed.

(** ** What generation writes *)

Section OutputFacts.

Context `{E : Env}.

(** One render changes the disk at its output path at most. *)
Lemma generate_single_disk (fp : FaviconProperties) (w : World) (q : path) :
  (forall od : path,
      output_directory (obj w) = Some od -> q <> path_join od (fmt_str fp)) ->
  disk (snd (_generate_single fp w)) !! q = disk w !! q.
Proof.
  unfold _generate_single, PIL_open_path, PIL_save. unfold_m.
  destruct w as [o fs log]. simpl. intros Hq.
  repeat break_leaf; try reflexivity.
  all: match goal with
       | H : write_bytes _ _ _ = _ |- _ =>
           apply write_bytes_inv in H as [(_ & -> & _)|(e' & _ & ->)]
       end; try reflexivity.
  all: apply lookup_insert_ne; intros Heq; eapply Hq; eauto.
Qed.

(** A render that succeeded has left a file at its output path. *)
Lemma generate_single_ok_file (fp : FaviconProperties) (w : World) :
  fst (_generate_single fp w) = Ok tt ->
  exists od : path,
    output_directory (obj w) = Some od
    /\ is_file (disk (snd (_generate_single fp w)))
         (path_join od (fmt_str fp)) = true.
Proof.
  unfold _generate_single, PIL_open_path, PIL_save. unfold_m.
  destruct w as [o fs log]. simpl.
  repeat break_leaf; intros Hrun; try discriminate.
  match goal with
  | H : write_bytes _ _ _ = _ |- _ =>
      apply write_bytes_inv in H as [(_ & -> & _)|(e & He & _)];
        [|discriminate]
  end.
  eexists. split; [reflexivity|].
  unfold is_file, path_join, stat. rewrite lookup_insert_eq. reflexivity.
Qed.

(** All the renders of [gather], run in order, change the disk at their
    output paths at most. *)
Lemma run_all_disk (fmts : list FaviconProperties) (q : path) :
  forall w : World,
    (forall (fp : FaviconProperties) (od : path),
        fp ∈ fmts -> output_directory (obj w) = Some od ->
        q <> path_join od (fmt_str fp)) ->
    disk (snd (run_all (map _agenerate_single fmts) w)) !! q = disk w !! q.
Proof.
  induction fmts as [|fp rest IH]; intros w Hq; simpl; [reflexivity|].
  change (_agenerate_single fp) with (_generate_single fp).
  pose proof (generate_single_disk fp w q) as Hone.
  destruct (generate_single_summary fp w) as (Ho & _).
  destruct (_generate_single fp w) as [r w1]. cbn [snd] in *.
  specialize (IH w1).
  destruct (run_all (map _agenerate_single rest) w1) as [rs w2].
  cbn [snd] in *. rewrite IH, Hone; [reflexivity| |].
  - intros od Hod. apply (Hq fp od); [left|exact Hod].
  - intros fp' od Hin Hod. apply (Hq fp' od); [right; exact Hin|].
    rewrite <- (only_completed_output_directory _ _ Ho). exact Hod.
Qed.

(** The same for the sequential loop, which runs a prefix of them. *)
Lemma for_each_disk (fmts : list FaviconProperties) (q : path) :
  forall w : World,
    (forall (fp : FaviconProperties) (od : path),
        fp ∈ fmts -> output_directory (obj w) = Some od ->
        q <> path_join od (fmt_str fp)) ->
    disk (snd (for_each fmts w)) !! q = disk w !! q.
Proof.
  induction fmts as [|fp rest IH]; intros w Hq; simpl; [reflexivity|].
  unfold bind.
  pose proof (generate_single_disk fp w q) as Hone.
  destruct (generate_single_summary fp w) as (Ho & _).
  destruct (_generate_single fp w) as [[[]|e] w1]; cbn [snd] in *.
  - rewrite IH, Hone; [reflexivity| |].
    + intros od Hod. apply (Hq fp od); [left|exact Hod].
    + intros fp' od Hin Hod. apply (Hq fp' od); [right; exact Hin|].
      rewrite <- (only_completed_output_directory _ _ Ho). exact Hod.
  - apply Hone. intros od Hod. apply (Hq fp od); [left|exact Hod].
Qed.

Lemma not_output_path (o : Favicons) (q : path) :
  q ∉ output_paths o ->
  forall (fp : FaviconProperties) (od : path),
    fp ∈ _formats o -> output_directory o = Some od ->
    q <> path_join od (fmt_str fp).
Proof.
  unfold output_paths. intros Hq fp od Hin Hod Heq. rewrite Hod in Hq.
  apply Hq. rewrite Heq.
  apply (list_elem_of_fmap_2 (fun fmt => path_join od (fmt_str fmt))).
  exact Hin.
Qed.

(** X13: generation writes at its output paths only: whether it raises or not,
    [sgenerate] leaves every path other than
    [output_directory / str(fmt)], for the descriptors [fmt] of the catalog,
    as it was, but for the directories the validation may have made; and so
    does [agenerate]. *)
Theorem generation_writes_output_paths_only (fuel : nat) (w : World) :
  (2 * List.length (_formats (obj w)) + 1 <= fuel)%nat ->
  grows_by_dirs_outside (output_paths (obj (snd (sgenerate w))))
    (disk w) (disk (snd (sgenerate w)))
  /\ exists (r : result unit) (w' : World),
       agenerate fuel w = Some (r, w')
       /\ grows_by_dirs_outside (output_paths (obj w')) (disk w) (disk w').
Proof.
  intros Hfuel. rewrite sgenerate_unfold, agenerate_settles by exact Hfuel.
  destruct (ensure_validated_frame w) as (_ & _ & Hgrow).
  destruct (ensure_validated w) as [[[]|e] w1]; cbn [fst snd] in *.
  - split.
    + intros q Hq.
      destruct (for_each_summary (_formats (obj w1)) w1) as (Ho & _).
      rewrite (only_completed_output_paths _ _ Ho) in Hq.
      rewrite for_each_disk by (apply not_output_path, Hq). apply Hgrow.
    + eexists _, _. split; [reflexivity|]. intros q Hq.
      destruct (run_all_summary (_formats (obj w1)) w1) as (Ho & _).
      rewrite (only_completed_output_paths _ _ Ho) in Hq.
      rewrite run_all_disk by (apply not_output_path, Hq). apply Hgrow.
  - split.
    + intros q _. apply Hgrow.
    + eexists _, _. split; [reflexivity|]. intros q _. apply Hgrow.
Qed.

(** A sequential loop that ran to its end has left a file at the output
    path of each of its descriptors. *)
Lemma for_each_ok_files (fmts : list FaviconProperties) :
  forall w : World,
    fst (for_each fmts w) = Ok tt ->
    forall fp : FaviconProperties,
      fp ∈ fmts ->
      exists od : path,
        output_directory (obj w) = Some od
        /\ is_file (disk (snd (for_each fmts w)))
             (path_join od (fmt_str fp)) = true.
Proof.
  induction fmts as [|fp rest IH]; intros w Hrun fp' Hin.
  - apply elem_of_nil in Hin. contradiction.
  - revert Hrun. simpl. unfold bind.
    pose proof (generate_single_ok_file fp w) as Hone.
    destruct (generate_single_summary fp w) as (Ho & _).
    destruct (_generate_single fp w) as [[[]|e] w1]; [|discriminate].
    cbn [fst snd] in *. intros Hrest.
    destruct (for_each_summary rest w1) as (_ & _ & Hkeep).
    apply elem_of_cons in Hin as [->|Hin].
    + destruct (Hone eq_refl) as (od & Hod & Hfile).
      exists od. split; [exact Hod|]. apply Hkeep, Hfile.
    + destruct (IH w1 Hrest fp' Hin) as (od & Hod & Hfile).
      exists od. split; [|exact Hfile].
      rewrite <- (only_completed_output_directory _ _ Ho). exact Hod.
Qed.

(** X14: after a run of [sgenerate] that did not raise, every output path of the
    catalog is a file, and all the files there were before are still there;
    [agenerate], when it does not raise, leaves the same. *)
Theorem successful_run_leaves_every_output_file (fuel : nat) (w : World) :
  fst (sgenerate w) = Ok tt ->
  (2 * List.length (_formats (obj w)) + 1 <= fuel)%nat ->
  Forall (fun p => is_file (disk (snd (sgenerate w))) p = true)
    (output_paths (obj (snd (sgenerate w))))
  /\ List.length (output_paths (obj (snd (sgenerate w))))
     = List.length (_formats (obj w))
  /\ keeps_files (disk w) (disk (snd (sgenerate w)))
  /\ agenerate fuel w = Some (Ok tt, snd (sgenerate w)).
Proof.
  intros Hrun Hfuel.
  destruct (sgenerate_frame w) as (_ & _ & _ & Hkeep).
  revert Hrun Hkeep.
  rewrite sgenerate_unfold, agenerate_settles by exact Hfuel.
  destruct (ensure_validated_frame w) as (Hobj & _ & _).
  destruct (ensure_validated w) as [[[]|e] w1]; [|discriminate].
  cbn [fst snd] in *. intros Hrun Hkeep.
  pose proof (only_validation_formats _ _ Hobj) as Hfmts.
  destruct (for_each_summary (_formats (obj w1)) w1) as (Ho & _).
  pose proof (for_each_ok_files _ _ Hrun) as Hfiles.
  destruct (for_each_run_all (_formats (obj w1)) w1) as [_ Hinv].
  destruct (for_each (_formats (obj w1)) w1) as [r w2] eqn:Hloop.
  cbn [fst snd] in *. subst r.
  destruct (Hinv w2 eq_refl) as (Hff & -> & _).
  rewrite (only_completed_output_paths _ _ Ho). splits.
  - unfold output_paths. destruct (_formats (obj w1)) as [|fp0 rest] eqn:Hcat.
    + destruct (output_directory (obj w1)); constructor.
    + destruct (Hfiles fp0 ltac:(left)) as (od & Hod & _). rewrite Hod.
      apply Forall_fmap, Forall_forall. intros fp Hin.
      destruct (Hfiles fp Hin) as (od' & Hod' & Hfile).
      rewrite Hod in Hod'. injection Hod' as <-. exact Hfile.
  - unfold output_paths. destruct (_formats (obj w1)) as [|fp0 rest] eqn:Hcat.
    + rewrite <- Hfmts. destruct (output_directory (obj w1)); reflexivity.
    + destruct (Hfiles fp0 ltac:(left)) as (od & Hod & _). rewrite Hod.
      rewrite length_map, <- Hfmts. reflexivity.
  - exact Hkeep.
  - rewrite Hff. reflexivity.
Qed.

Lemma same_metadata_refl (o : Favicons) : same_metadata o o.
Proof. split; reflexivity. Qed.

Lemma same_metadata_trans (o1 o2 o3 : Favicons) :
  same_metadata o1 o2 -> same_metadata o2 o3 -> same_metadata o1 o3.
Proof.
  intros [Hh Hf] [Hh' Hf']. split.
  - rewrite Hh'. exact Hh.
  - intros prefix. rewrite Hf'. apply Hf.
Qed.

Lemma only_validation_metadata (o o' : Favicons) :
  only_validation_changed o o' -> same_metadata o o'.
Proof. intros ->. split; reflexivity. Qed.

Lemma only_completed_metadata (o o' : Favicons) :
  only_completed_changed o o' -> same_metadata o o'.
Proof. intros ->. split; reflexivity. Qed.

(** X15: the link tags and the file names an instance reports are fixed when it
    is constructed: validation, entering and leaving a context and both
    entry points of generation leave [html] and [filenames] as they were,
    whether they raise or not.  In particular a variant whose render failed,
    or was never attempted, is reported like the others. *)
Theorem metadata_does_not_depend_on_generation (fuel : nat) (w : World) :
  (2 * List.length (_formats (obj w)) + 1 <= fuel)%nat ->
  same_metadata (obj w) (obj (snd (_validate w)))
  /\ same_metadata (obj w) (obj (snd (__enter__ w)))
  /\ same_metadata (obj w) (obj (snd (__aenter__ w)))
  /\ same_metadata (obj w) (obj (snd (__exit__ w)))
  /\ same_metadata (obj w) (obj (snd (__aexit__ w)))
  /\ same_metadata (obj w) (obj (snd (sgenerate w)))
  /\ exists (r : result unit) (w' : World),
       agenerate fuel w = Some (r, w') /\ same_metadata (obj w) (obj w').
Proof.
  intros Hfuel.
  destruct (validate_frame w) as (Hobj & _ & _).
  apply only_validation_metadata in Hobj.
  destruct (ensure_validated_frame w) as (Hens & _ & _).
  apply only_validation_metadata in Hens.
  splits.
  - exact Hobj.
  - unfold __enter__, bind, modify_self.
    destruct (_validate w) as [[[]|e] w1]; exact Hobj.
  - unfold __aenter__, bind, modify_self.
    destruct (_validate w) as [[[]|e] w1]; exact Hobj.
  - rewrite exit_keeps_instance. apply same_metadata_refl.
  - unfold __aexit__. change _close_temp_source with __exit__.
    rewrite exit_keeps_instance. apply same_metadata_refl.
  - rewrite sgenerate_unfold.
    destruct (ensure_validated w) as [[[]|e] w1]; cbn [snd] in *;
      [|exact Hens].
    destruct (for_each_summary (_formats (obj w1)) w1) as (Ho & _).
    eapply same_metadata_trans; [exact Hens|].
    apply only_completed_metadata, Ho.
  - rewrite agenerate_settles by exact Hfuel.
    destruct (ensure_validated w) as [[[]|e] w1]; cbn [snd] in *;
      eexists _, _; (split; [reflexivity|]); [|exact Hens].
    destruct (run_all_summary (_formats (obj w1)) w1) as (Ho & _).
    eapply same_metadata_trans; [exact Hens|].
    apply only_completed_metadata, Ho.
Qed.

End OutputFacts.

Lemma generation_writes_output_paths_only_witness :
  grows_by_dirs_outside
    (output_paths (obj (snd (sgenerate (E := Demo.env) Demo.world_blocked))))
    (disk Demo.world_blocked)
    (disk (snd (sgenerate (E := Demo.env) Demo.world_blocked)))
  /\ exists (r : result unit) (w' : World (E := Demo.env)),
       agenerate 7 Demo.world_blocked = Some (r, w')
       /\ grows_by_dirs_outside (output_paths (obj w'))
            (disk Demo.world_blocked) (disk w').
Proof.
  apply (generation_writes_output_paths_only (E := Demo.env) 7
           Demo.world_blocked).
  vm_compute. lia.
Defined.

Lemma successful_run_leaves_every_output_file_witness :
  Forall
    (fun p => is_file (disk (snd (sgenerate (E := Demo.env) Demo.world0))) p
              = true)
    (output_paths (obj (snd (sgenerate (E := Demo.env) Demo.world0))))
  /\ List.length
       (output_paths (obj (snd (sgenerate (E := Demo.env) Demo.world0))))
     = List.length (_formats (obj Demo.world0))
  /\ keeps_files (disk Demo.world0)
       (disk (snd (sgenerate (E := Demo.env) Demo.world0)))
  /\ agenerate 7 Demo.world0
     = Some (Ok tt, snd (sgenerate (E := Demo.env) Demo.world0)).
Proof.
  apply (successful_run_leaves_every_output_file (E := Demo.env) 7
           Demo.world0).
  - vm_compute. reflexivity.
  - vm_compute. lia.
Defined.

Lemma metadata_does_not_depend_on_generation_witness :
  same_metadata (obj Demo.world_blocked)
    (obj (snd (_validate (E := Demo.env) Demo.world_blocked)))
  /\ same_metadata (obj Demo.world_blocked)
       (obj (snd (__enter__ (E := Demo.env) Demo.world_blocked)))
  /\ same_metadata (obj Demo.world_blocked)
       (obj (snd (__aenter__ (E := Demo.env) Demo.world_blocked)))
  /\ same_metadata (obj Demo.world_blocked)
       (obj (snd (__exit__ (E := Demo.env) Demo.world_blocked)))
  /\ same_metadata (obj Demo.world_blocked)
       (obj (snd (__aexit__ (E := Demo.env) Demo.world_blocked)))
  /\ same_metadata (obj Demo.world_blocked)
       (obj (snd (sgenerate (E := Demo.env) Demo.world_blocked)))
  /\ exists (r : result unit) (w' : World (E := Demo.env)),
       agenerate 7 Demo.world_blocked = Some (r, w')
       /\ same_metadata (obj Demo.world_blocked) (obj w').
Proof.
  apply (metadata_does_not_depend_on_generation (E := Demo.env) 7
           Demo.world_blocked).
  vm_compute. lia.
Defined.

(** ** The catalog *)

Section CatalogFacts.

Context `{E : Env}.

Lemma generate_icon_types_from_app (a b : list (icon_type Kwargs)) :
  generate_icon_types_from (a ++ b)%list
  = (generate_icon_types_from a ++ generate_icon_types_from b)%list.
Proof.
  induction a as [|[kw|] a IH]; simpl; [reflexivity| |exact IH].
  rewrite IH. reflexivity.
Qed.

Lemma generate_icon_types_from_elem (types : list (icon_type Kwargs))
  (fp : FaviconProperties) :
  fp ∈ generate_icon_types_from types
  <-> exists kw : Kwargs,
        IconMapping kw ∈ types /\ fp = FaviconProperties_init kw.
Proof.
  induction types as [|[kw|] types IH]; simpl.
  - split; [intros H; apply elem_of_nil in H; contradiction|].
    intros (kw & H & _). apply elem_of_nil in H. contradiction.
  - rewrite elem_of_cons, IH. split.
    + intros [->|(kw' & Hin & ->)].
      * exists kw. split; [left|reflexivity].
      * exists kw'. split; [right; exact Hin|reflexivity].
    + intros (kw' & Hin & ->). apply elem_of_cons in Hin as [[= ->]|Hin].
      * left. reflexivity.
      * right. exists kw'. auto.
  - rewrite IH. split.
    + intros (kw & Hin & ->). exists kw. split; [right; exact Hin|reflexivity].
    + intros (kw & Hin & ->). apply elem_of_cons in Hin as [[=]|Hin].
      exists kw. auto.
Qed.

Lemma generate_icon_types_from_length (types : list (icon_type Kwargs)) :
  (List.length (generate_icon_types_from types) <= List.length types)%nat.
Proof.
  induction types as [|[kw|] types IH]; simpl; lia.
Qed.

(** X16: the catalog of an instance is made of the [Mapping] entries of
    [ICON_TYPES], in their order, one descriptor each; an entry that is not
    a [Mapping] is skipped without an error.  The instance reports one link
    tag and one file name per descriptor, before any validation. *)
Theorem catalog_is_the_mappings_of_icon_types (src out : path)
  (col : LooseColor) (t : bool) (url : string) (fs : FS) (self : Favicons) :
  fst (__init__ src out col t url fs) = Ok self ->
  _formats self = generate_icon_types
  /\ (forall fp : FaviconProperties,
        fp ∈ _formats self
        <-> exists kw : Kwargs,
              IconMapping kw ∈ ICON_TYPES /\ fp = FaviconProperties_init kw)
  /\ (forall (a b : list (icon_type Kwargs)),
        ICON_TYPES = (a ++ b)%list ->
        _formats self
        = (generate_icon_types_from a ++ generate_icon_types_from b)%list)
  /\ (List.length (_formats self) <= List.length ICON_TYPES)%nat
  /\ List.length (html self) = List.length (_formats self)
  /\ (forall prefix : bool,
        List.length (filenames self prefix) = List.length (_formats self)).
Proof.
  intros Hinit.
  assert (Hcat : _formats self = generate_icon_types).
  { revert Hinit. rewrite init_unfold.
    destruct (Color_init col) as [c|e]; [|discriminate].
    destruct (String.eqb (suffix src) ".svg").
    - destruct (svg_to_png src fs) as [[png|e] fs']; [|discriminate].
      intros [= <-]. reflexivity.
    - intros [= <-]. reflexivity. }
  rewrite Hcat. unfold generate_icon_types. splits.
  - reflexivity.
  - intros fp. apply generate_icon_types_from_elem.
  - intros a b ->. apply generate_icon_types_from_app.
  - apply generate_icon_types_from_length.
  - unfold html, html_gen. rewrite length_map, Hcat. reflexivity.
  - intros prefix. unfold filenames, filenames_gen.
    rewrite length_map, Hcat. reflexivity.
Qed.

End CatalogFacts.

Lemma catalog_is_the_mappings_of_icon_types_witness :
  _formats (Demo.pipeline_png Demo.catalog)
  = generate_icon_types (E := Demo.env_with Demo.catalog)
  /\ (forall fp : FaviconProperties (Env := Demo.env_with Demo.catalog),
        fp ∈ _formats (Demo.pipeline_png Demo.catalog)
        <-> exists kw : Kwargs (Env := Demo.env_with Demo.catalog),
              IconMapping kw ∈ ICON_TYPES (Env := Demo.env_with Demo.catalog)
              /\ fp = FaviconProperties_init kw)
  /\ (forall (a b : list (icon_type
                        (Kwargs (Env := Demo.env_with Demo.catalog)))),
        ICON_TYPES (Env := Demo.env_with Demo.catalog) = (a ++ b)%list ->
        _formats (Demo.pipeline_png Demo.catalog)
        = (generate_icon_types_from a ++ generate_icon_types_from b)%list)
  /\ (List.length (_formats (Demo.pipeline_png Demo.catalog))
      <= List.length (ICON_TYPES (Env := Demo.env_with Demo.catalog)))%nat
  /\ List.length (html (Demo.pipeline_png Demo.catalog))
     = List.length (_formats (Demo.pipeline_png Demo.catalog))
  /\ (forall prefix : bool,
        List.length (filenames (Demo.pipeline_png Demo.catalog) prefix)
        = List.length (_formats (Demo.pipeline_png Demo.catalog))).
Proof.
  apply (catalog_is_the_mappings_of_icon_types
           (E := Demo.env_with Demo.catalog)
           (mkpath ["srv"; "logo.png"]) (mkpath ["out"]) (ColorStr "#000000")
           true "/" Demo.disk0 (Demo.pipeline_png Demo.catalog)).
  reflexivity.
Defined.

(** ** Running generation again *)

Section RegenerationFacts.

Context `{E : Env}.

Lemma only_completed_settings (o o' : Favicons) :
  only_completed_changed o o' -> set_completed 0 o' = set_completed 0 o.
Proof. intros H. rewrite H. reflexivity. Qed.

(** A render that succeeded in one world succeeds in every world with the
    same settings where the source reads the same and the output path is a
    file, and it writes the same bytes there. *)
Lemma generate_single_transfer (fp : FaviconProperties) (w v : World) :
  set_completed 0 (obj v) = set_completed 0 (obj w) ->
  (forall sp : path,
      source (obj w) = Some sp ->
      read_bytes sp (disk v) = read_bytes sp (disk w)) ->
  (forall od : path,
      output_directory (obj w) = Some od ->
      is_file (disk v) (path_join od (fmt_str fp)) = true) ->
  fst (_generate_single fp w) = Ok tt ->
  exists (od : path) (out : bytes),
    output_directory (obj w) = Some od
    /\ disk (snd (_generate_single fp w))
       = <[path_join od (fmt_str fp) := File out]> (disk w)
    /\ fst (_generate_single fp v) = Ok tt
    /\ disk (snd (_generate_single fp v))
       = <[path_join od (fmt_str fp) := File out]> (disk v).
Proof.
  intros Hset Hread Hfile.
  pose proof (f_equal source Hset) as Hsrc.
  pose proof (f_equal output_directory Hset) as Hout.
  pose proof (f_equal bg_of Hset) as Hbg.
  unfold _generate_single, PIL_open_path, PIL_save. unfold_m.
  destruct w as [ow fsw logw], v as [ov fsv logv].
  cbn [obj disk attempts] in *.
  change (source (set_completed 0 ov)) with (source ov) in Hsrc.
  change (source (set_completed 0 ow)) with (source ow) in Hsrc.
  change (output_directory (set_completed 0 ov)) with (output_directory ov)
    in Hout.
  change (output_directory (set_completed 0 ow)) with (output_directory ow)
    in Hout.
  change (bg_of (set_completed 0 ov)) with (bg_of ov) in Hbg.
  change (bg_of (set_completed 0 ow)) with (bg_of ow) in Hbg.
  rewrite Hsrc, Hout, Hbg. simpl.
  destruct (source ow) as [sp|]; [|discriminate]. simpl.
  rewrite (Hread sp eq_refl).
  destruct (read_bytes sp fsw) as [data|e]; [|discriminate]. simpl.
  destruct (PIL_open data) as [src|e]; [|discriminate]. simpl.
  destruct (output_directory ow) as [od|]; [|discriminate]. simpl.
  destruct (PIL_new "RGBA" (PIL_size src) (bg_of ow)) as [canvas|e];
    [|discriminate]. simpl.
  destruct (PIL_convert src "RGBA") as [rgba|e]; [|discriminate]. simpl.
  destruct (PIL_alpha_composite canvas rgba) as [comp|e]; [|discriminate].
  simpl.
  destruct (ImageOps_pad comp (dimensions fp) (bg_of ow)) as [padded|e];
    [|discriminate]. simpl.
  destruct (PIL_encode padded (image_fmt fp)) as [out|e]; [|discriminate].
  simpl.
  specialize (Hfile od eq_refl).
  assert (Hwv : write_bytes (path_join od (fmt_str fp)) out fsv
                = (Ok tt, <[path_join od (fmt_str fp) := File out]> fsv)).
  { unfold write_bytes. unfold is_file in Hfile.
    destruct (stat fsv (path_join od (fmt_str fp))) as [[|b]|];
      try discriminate. reflexivity. }
  rewrite Hwv. simpl.
  destruct (write_bytes (path_join od (fmt_str fp)) out fsw) as [[[]|e] fs']
    eqn:Hww; [|discriminate]. simpl. intros _.
  apply write_bytes_inv in Hww as [(_ & -> & _)|(e & He & _)]; [|discriminate].
  exists od, out. auto.
Qed.

Lemma insert_file_keeps (fs : FS) (p q : path) (b : bytes) :
  is_file fs q = true -> is_file (<[p := File b]> fs) q = true.
Proof.
  unfold is_file, stat. destruct q as [|x d]; [trivial|].
  destruct (decide (p = x :: d)) as [->|Hne].
  - rewrite lookup_insert_eq. reflexivity.
  - rewrite lookup_insert_ne by exact Hne. trivial.
Qed.

Lemma read_bytes_lookup (fs fs' : FS) (p : path) :
  fs' !! p = fs !! p -> read_bytes p fs' = read_bytes p fs.
Proof.
  intros Heq. unfold read_bytes, stat. destruct p as [|x d]; [reflexivity|].
  rewrite Heq. reflexivity.
Qed.

(** A sequential loop that ran to its end runs to its end again in every
    world with the same settings where the source reads the same and the
    output paths are files; it leaves at the output paths what the first run
    left there, and nothing else changes. *)
Lemma for_each_transfer (od : path) (fmts : list FaviconProperties) :
  forall w v : World,
    output_directory (obj w) = Some od ->
    set_completed 0 (obj v) = set_completed 0 (obj w) ->
    (forall sp : path,
        source (obj w) = Some sp ->
        read_bytes sp (disk v) = read_bytes sp (disk w)
        /\ sp ∉ map (fun fmt => path_join od (fmt_str fmt)) fmts) ->
    (forall fp : FaviconProperties,
        fp ∈ fmts -> is_file (disk v) (path_join od (fmt_str fp)) = true) ->
    fst (for_each fmts w) = Ok tt ->
    fst (for_each fmts v) = Ok tt
    /\ forall q : path,
         (q ∈ map (fun fmt => path_join od (fmt_str fmt)) fmts ->
          disk (snd (for_each fmts v)) !! q = disk (snd (for_each fmts w)) !! q)
         /\ (q ∉ map (fun fmt => path_join od (fmt_str fmt)) fmts ->
             disk (snd (for_each fmts v)) !! q = disk v !! q).
Proof.
  induction fmts as [|fp rest IH]; intros w v Hod Hset Hsrc Hfiles.
  - simpl. intros _. split; [reflexivity|]. intros q. split.
    + intros Hin. apply elem_of_nil in Hin. contradiction.
    + reflexivity.
  - simpl. unfold bind. intros Hrun.
    assert (Hone : fst (_generate_single fp w) = Ok tt).
    { destruct (_generate_single fp w) as [[[]|e] w1];
        [reflexivity|discriminate]. }
    destruct (generate_single_transfer fp w v Hset) as
      (od' & out & Hod' & Hdw & Hv & Hdv).
    { intros sp Hsp. apply (Hsrc sp Hsp). }
    { intros od' Hod'. rewrite Hod in Hod'. injection Hod' as <-.
      apply Hfiles. left. }
    { exact Hone. }
    rewrite Hod in Hod'. injection Hod' as <-.
    destruct (generate_single_summary fp w) as (Hw1 & _).
    destruct (generate_single_summary fp v) as (Hv1 & _).
    destruct (_generate_single fp w) as [[[]|e] w1]; [|discriminate].
    destruct (_generate_single fp v) as [[[]|e] v1]; [|discriminate].
    cbn [fst snd] in *.
    set (p := path_join od (fmt_str fp)) in *.
    assert (Hod1 : output_directory (obj w1) = Some od).
    { rewrite (only_completed_output_directory _ _ Hw1). exact Hod. }
    assert (Hset1 : set_completed 0 (obj v1) = set_completed 0 (obj w1)).
    { rewrite (only_completed_settings _ _ Hv1),
        (only_completed_settings _ _ Hw1). exact Hset. }
    assert (Hsrc1 : forall sp : path,
               source (obj w1) = Some sp ->
               read_bytes sp (disk v1) = read_bytes sp (disk w1)
               /\ sp ∉ map (fun fmt => path_join od (fmt_str fmt)) rest).
    { intros sp Hsp.
      assert (Hsp0 : source (obj w) = Some sp).
      { rewrite <- Hsp. symmetry.
        apply (f_equal source (only_completed_settings _ _ Hw1)). }
      destruct (Hsrc sp Hsp0) as [Hread Hnot].
      apply not_elem_of_cons in Hnot as [Hne Hnot].
      split; [|exact Hnot].
      rewrite Hdv, Hdw. unfold read_bytes.
      rewrite !stat_insert_ne
        by (intros Heq; apply Hne; symmetry; exact Heq).
      exact Hread. }
    assert (Hfiles1 : forall fp' : FaviconProperties,
               fp' ∈ rest ->
               is_file (disk v1) (path_join od (fmt_str fp')) = true).
    { intros fp' Hin. rewrite Hdv. apply insert_file_keeps, Hfiles.
      right. exact Hin. }
    destruct (IH w1 v1 Hod1 Hset1 Hsrc1 Hfiles1 Hrun) as [Hok Hdisk].
    split; [exact Hok|]. intros q.
    destruct (Hdisk q) as [Hin Hout]. split.
    + intros Hq.
      destruct (decide (q ∈ map (fun fmt => path_join od (fmt_str fmt)) rest))
        as [Hrest|Hrest]; [apply Hin, Hrest|].
      apply elem_of_cons in Hq as [->|Hq]; [|contradiction].
      rewrite (Hout Hrest), Hdv.
      rewrite (for_each_disk rest p w1), Hdw.
      * rewrite !lookup_insert_eq. reflexivity.
      * intros fp' od' Hfp' Hod'. rewrite Hod1 in Hod'.
        injection Hod' as <-. intros Heq. apply Hrest. rewrite Heq.
        apply (list_elem_of_fmap_2 (fun fmt => path_join od (fmt_str fmt))).
        exact Hfp'.
    + intros Hq. apply not_elem_of_cons in Hq as [Hne Hq].
      rewrite (Hout Hq), Hdv. apply lookup_insert_ne. congruence.
Qed.

(** X17: running [sgenerate] again after a run that did not raise does not
    raise either and leaves the disk exactly as the first run left it,
    provided the source is not itself one of the output paths: every output
    file is written again with the same bytes. *)
Theorem regeneration_rewrites_the_same_files (w : World) :
  fst (sgenerate w) = Ok tt ->
  (forall sp : path,
      source (obj (snd (sgenerate w))) = Some sp ->
      sp ∉ output_paths (obj (snd (sgenerate w)))) ->
  fst (sgenerate (snd (sgenerate w))) = Ok tt
  /\ disk (snd (sgenerate (snd (sgenerate w)))) = disk (snd (sgenerate w)).
Proof.
  rewrite (sgenerate_unfold w).
  pose proof (ensure_validated_unfold w) as Hens.
  destruct (ensure_validated w) as [[[]|e] w1] eqn:Hval; [|discriminate].
  cbn [fst snd].
  assert (Hflag : _validated (obj w1) = true).
  { destruct (_validated (obj w)) eqn:Hv.
    - injection Hens as <-. exact Hv.
    - symmetry in Hens. apply validate_ok in Hens as (Hok & _). exact Hok. }
  intros Hrun Hsp.
  destruct (for_each_summary (_formats (obj w1)) w1) as (Ho & _).
  pose proof (for_each_ok_files _ _ Hrun) as Hfiles.
  set (w2 := snd (for_each (_formats (obj w1)) w1)) in *.
  assert (Hagain : sgenerate w2 = for_each (_formats (obj w1)) w2).
  { rewrite sgenerate_unfold, ensure_validated_unfold.
    rewrite (only_completed_validated _ _ Ho), Hflag.
    rewrite (only_completed_formats _ _ Ho). reflexivity. }
  rewrite Hagain.
  destruct (output_directory (obj w1)) as [od|] eqn:Hod.
  - destruct (for_each_transfer od (_formats (obj w1)) w1 w2 Hod)
      as [Hok Hdisk].
    + apply only_completed_settings, Ho.
    + intros sp Hsrc.
      assert (Hsrc2 : source (obj w2) = Some sp).
      { rewrite <- Hsrc.
        apply (f_equal source (only_completed_settings _ _ Ho)). }
      specialize (Hsp sp Hsrc2).
      rewrite (only_completed_output_paths _ _ Ho) in Hsp.
      split.
      * apply read_bytes_lookup. subst w2. apply for_each_disk.
        apply not_output_path, Hsp.
      * unfold output_paths in Hsp. rewrite Hod in Hsp. exact Hsp.
    + intros fp Hin. destruct (Hfiles fp Hin) as (od' & Hod' & Hfile).
      injection Hod' as <-. exact Hfile.
    + exact Hrun.
    + split; [exact Hok|]. apply map_eq. intros q.
      destruct (Hdisk q) as [Hin Hout].
      destruct (decide (q ∈ map (fun fmt => path_join od (fmt_str fmt))
                              (_formats (obj w1)))) as [Hq|Hq].
      * apply Hin, Hq.
      * apply Hout, Hq.
  - destruct (_formats (obj w1)) as [|fp rest] eqn:Hcat.
    + split; reflexivity.
    + destruct (Hfiles fp ltac:(left)) as (od & Hod' & _). discriminate.
Qed.

End RegenerationFacts.

Lemma regeneration_rewrites_the_same_files_witness :
  fst (sgenerate (E := Demo.env) (snd (sgenerate (E := Demo.env) Demo.world0)))
  = Ok tt
  /\ disk (snd (sgenerate (E := Demo.env)
                  (snd (sgenerate (E := Demo.env) Demo.world0))))
     = disk (snd (sgenerate (E := Demo.env) Demo.world0)).
Proof.
  apply (regeneration_rewrites_the_same_files (E := Demo.env) Demo.world0).
  - vm_compute. reflexivity.
  - intros sp Hsp.
    apply (bool_decide_unpack
             (sp ∉ output_paths
                     (obj (snd (sgenerate (E := Demo.env) Demo.world0))))).
    vm_compute in Hsp. injection Hsp as <-. vm_compute. exact I.
Defined.

(** ** Validation of what the constructor left *)

Section ConstructedFacts.

Context `{E : Env}.

(** [write_bytes] never replaces a directory. *)
Lemma write_bytes_keeps_dirs (p q : path) (b : bytes) (fs : FS) :
  is_dir fs q = true -> is_dir (snd (write_bytes p b fs)) q = true.
Proof.
  intros Hq. destruct (write_bytes p b fs) as [r fs'] eqn:Hw. cbn [snd].
  pose proof Hw as Hinv.
  apply write_bytes_inv in Hinv as [(-> & -> & Hne)|(e & _ & ->)];
    [|exact Hq].
  assert (Hpq : p <> q).
  { intros ->. unfold write_bytes in Hw. unfold is_dir in Hq.
    destruct (stat fs q) as [[|c]|]; discriminate. }
  unfold is_dir in *. rewrite stat_insert_ne by exact Hpq. exact Hq.
Qed.

Lemma svg_to_png_keeps_dirs (src q : path) (fs : FS) :
  is_dir fs q = true -> is_dir (snd (svg_to_png src fs)) q = true.
Proof.
  intros Hq. unfold svg_to_png, mkstemp.
  pose proof (write_bytes_keeps_dirs (mkstemp_name fs ".png") q [] fs Hq)
    as H1.
  destruct (write_bytes (mkstemp_name fs ".png") [] fs) as [[u|e] fs1];
    cbn [snd] in *; [|exact H1].
  destruct (read_bytes src fs1) as [svg|e]; [|exact H1].
  destruct (svg2png svg) as [data|e]; [|exact H1].
  pose proof (write_bytes_keeps_dirs (mkstemp_name fs ".png") q data fs1 H1)
    as H2.
  destruct (write_bytes (mkstemp_name fs ".png") data fs1) as [[u'|e] fs2];
    exact H2.
Qed.

(** X18: for an [.svg] source, what [_validate] checks is the temporary PNG the
    constructor made, not the path the caller gave: with the output
    directory in place, validation passes exactly when the extension of the
    temporary file is supported, whether or not [".svg"] is, and when it is
    not the exception names the temporary file.  [source] is the temporary
    file, and validation leaves the disk as the constructor left it. *)
Theorem svg_source_is_validated_as_its_png (src out : path) (col : LooseColor)
  (t : bool) (url : string) (fs : FS) :
  suffix src = ".svg" ->
  is_ok (fst (__init__ src out col t url fs)) = true ->
  is_dir fs out = true ->
  exists self : Favicons,
    fst (__init__ src out col t url fs) = Ok self
    /\ fst (_validate (mkWorld self (snd (__init__ src out col t url fs)) []))
       = (if bool_decide
               (lower (suffix (mkstemp_name fs ".png")) ∈ SUPPORTED_FORMATS)
          then Ok tt
          else Raise (FaviconNotSupportedError (mkstemp_name fs ".png")))
    /\ source (obj (snd (_validate
                           (mkWorld self
                              (snd (__init__ src out col t url fs)) []))))
       = Some (mkstemp_name fs ".png")
    /\ disk (snd (_validate
                    (mkWorld self (snd (__init__ src out col t url fs)) [])))
       = snd (__init__ src out col t url fs).
Proof.
  intros Hsvg Hinit Hout. rewrite init_unfold in *. rewrite Hsvg in *.
  change (String.eqb ".svg" ".svg") with true in *. cbv iota in *.
  destruct (Color_init col) as [c|e]; [|discriminate].
  pose proof (svg_to_png_keeps_dirs src out fs Hout) as Hout'.
  destruct (svg_to_png src fs) as [[png|e] fs'] eqn:Hrun; [|discriminate].
  cbn [fst snd] in *. eexists. split; [reflexivity|].
  apply svg_to_png_ok in Hrun as (-> & Hfile & _).
  assert (Hex : exists_ fs' (mkstemp_name fs ".png") = true).
  { unfold is_file in Hfile. unfold exists_.
    destruct (stat fs' (mkstemp_name fs ".png")) as [[|b]|];
      try discriminate. reflexivity. }
  rewrite validate_unfold.
  cbn [obj disk attempts _source _output_directory]. cbv zeta.
  rewrite validate_path_plain, Hex.
  rewrite validate_path_existing_dir by exact Hout'.
  destruct (bool_decide _); splits; reflexivity.
Qed.

(** [validate_path] never makes the path it is given. *)
Lemma validate_path_target (p : path) (must_exist create : bool) (fs : FS) :
  exists_ (snd (validate_path p must_exist create fs)) p = exists_ fs p.
Proof.
  unfold validate_path. rewrite is_dir_and_absent.
  destruct create.
  - destruct (negb (is_dir fs p) && negb (exists_ fs (parent p))) eqn:Hcond.
    + destruct p as [|x d]; [discriminate|]. cbn [parent] in *.
      pose proof (mkdir_parents_exists_longer d (x :: d) false fs) as Hlong.
      destruct (mkdir_parents false d fs) as [[u|e] fs1]; cbn [snd] in *.
      * destruct (must_exist && negb (exists_ fs1 (x :: d)));
          apply Hlong; simpl; lia.
      * apply Hlong. simpl. lia.
    + destruct (must_exist && negb (exists_ fs p)); reflexivity.
  - destruct (must_exist && negb (exists_ fs p)); reflexivity.
Qed.

(** X19: the pipeline never makes its output directory: on an instance that
    has not been validated and whose output directory does not exist,
    validation raises, so do [__enter__], [__aenter__], [sgenerate] and
    [agenerate], no render is entered, and the output directory still does
    not exist afterwards.  When the source exists and the parent of the
    output directory is an existing directory, the exception is
    [FaviconNotFoundError] for the output directory and the disk is
    untouched. *)
Theorem missing_output_directory_is_never_made (fuel : nat) (w : World) :
  _validated (obj w) = false ->
  exists_ (disk w) (_output_directory (obj w)) = false ->
  is_ok (fst (_validate w)) = false
  /\ is_ok (fst (__enter__ w)) = false
  /\ is_ok (fst (__aenter__ w)) = false
  /\ is_ok (fst (sgenerate w)) = false
  /\ agenerate fuel w = Some (sgenerate w)
  /\ attempts (snd (sgenerate w)) = attempts w
  /\ exists_ (disk (snd (sgenerate w))) (_output_directory (obj w)) = false
  /\ (exists_ (disk w) (_source (obj w)) = true ->
      is_dir (disk w) (parent (_output_directory (obj w))) = true ->
      fst (sgenerate w)
      = Raise (FaviconNotFoundError (_output_directory (obj w)))
      /\ disk (snd (sgenerate w)) = disk w).
Proof.
  intros Hfresh Hmissing.
  assert (Hens : ensure_validated w = _validate w).
  { rewrite ensure_validated_unfold, Hfresh. reflexivity. }
  assert (Hval : is_ok (fst (_validate w)) = false
                 /\ exists_ (disk (snd (_validate w)))
                      (_output_directory (obj w)) = false
                 /\ (exists_ (disk w) (_source (obj w)) = true ->
                     is_dir (disk w) (parent (_output_directory (obj w)))
                     = true ->
                     fst (_validate w)
                     = Raise (FaviconNotFoundError (_output_directory (obj w)))
                     /\ disk (snd (_validate w)) = disk w)).
  { rewrite validate_unfold. destruct w as [o fs log].
    cbn [obj disk attempts] in *. cbv zeta. rewrite validate_path_plain.
    destruct (exists_ fs (_source o)) eqn:Hsrc.
    - pose proof (validate_path_target (_output_directory o) true true fs)
        as Htarget.
      pose proof (validate_path_must_exist (_output_directory o)) as Hmust.
      destruct (validate_path (_output_directory o) true true fs)
        as [[out|e] fs2] eqn:Hout; cbn [snd] in *.
      + specialize (Hmust out true fs fs2 Hout).
        rewrite Htarget, Hmissing in Hmust. discriminate.
      + cbn [fst snd disk is_ok].
        splits; [reflexivity|rewrite Htarget; exact Hmissing|]. intros _ Hpar.
        revert Hout. unfold validate_path. rewrite is_dir_and_absent.
        rewrite (is_dir_exists _ _ Hpar), andb_false_r, Hmissing.
        intros [= <- <-]. split; reflexivity.
    - splits; [reflexivity|exact Hmissing|discriminate]. }
  destruct Hval as (Hfail & Hstill & Hexact).
  destruct (validate_frame w) as (_ & Hlog & _).
  assert (Hsg : sgenerate w = _validate w).
  { rewrite sgenerate_unfold, Hens.
    destruct (_validate w) as [[u|e] w1]; [discriminate|reflexivity]. }
  splits.
  - exact Hfail.
  - unfold __enter__, bind. destruct (_validate w) as [[u|e] w1];
      [discriminate|reflexivity].
  - unfold __aenter__, bind. destruct (_validate w) as [[u|e] w1];
      [discriminate|reflexivity].
  - rewrite Hsg. exact Hfail.
  - rewrite Hsg. unfold agenerate. rewrite Hens.
    destruct (_validate w) as [[u|e] w1]; [discriminate|reflexivity].
  - rewrite Hsg. exact Hlog.
  - rewrite Hsg. exact Hstill.
  - rewrite Hsg. exact Hexact.
Qed.

End ConstructedFacts.

Lemma svg_source_is_validated_as_its_png_witness :
  exists self : Favicons (E := Demo.env),
    fst (__init__ (mkpath ["srv"; "logo.svg"]) (mkpath ["out"])
           (ColorStr "#000000") true "/" Demo.disk0) = Ok self
    /\ fst (_validate
              (mkWorld self
                 (snd (__init__ (E := Demo.env) (mkpath ["srv"; "logo.svg"])
                         (mkpath ["out"]) (ColorStr "#000000") true "/"
                         Demo.disk0)) []))
       = (if bool_decide
               (lower (suffix (mkstemp_name (Env := Demo.env) Demo.disk0
                                 ".png"))
                ∈ SUPPORTED_FORMATS (Env := Demo.env))
          then Ok tt
          else Raise (FaviconNotSupportedError
                        (mkstemp_name (Env := Demo.env) Demo.disk0 ".png")))
    /\ source (obj (snd (_validate
                           (mkWorld self
                              (snd (__init__ (E := Demo.env)
                                      (mkpath ["srv"; "logo.svg"])
                                      (mkpath ["out"]) (ColorStr "#000000")
                                      true "/" Demo.disk0)) []))))
       = Some (mkstemp_name (Env := Demo.env) Demo.disk0 ".png")
    /\ disk (snd (_validate
                    (mkWorld self
                       (snd (__init__ (E := Demo.env)
                               (mkpath ["srv"; "logo.svg"]) (mkpath ["out"])
                               (ColorStr "#000000") true "/" Demo.disk0))
                       [])))
       = snd (__init__ (E := Demo.env) (mkpath ["srv"; "logo.svg"])
                (mkpath ["out"]) (ColorStr "#000000") true "/" Demo.disk0).
Proof.
  apply (svg_source_is_validated_as_its_png (E := Demo.env)
           (mkpath ["srv"; "logo.svg"]) (mkpath ["out"]) (ColorStr "#000000")
           true "/" Demo.disk0).
  - reflexivity.
  - vm_compute. reflexivity.
  - vm_compute. reflexivity.
Defined.

Lemma missing_output_directory_is_never_made_witness :
  is_ok (fst (_validate (E := Demo.env) Demo.world_no_out)) = false
  /\ is_ok (fst (__enter__ (E := Demo.env) Demo.world_no_out)) = false
  /\ is_ok (fst (__aenter__ (E := Demo.env) Demo.world_no_out)) = false
  /\ is_ok (fst (sgenerate (E := Demo.env) Demo.world_no_out)) = false
  /\ agenerate 7 Demo.world_no_out
     = Some (sgenerate (E := Demo.env) Demo.world_no_out)
  /\ attempts (snd (sgenerate (E := Demo.env) Demo.world_no_out))
     = attempts Demo.world_no_out
  /\ exists_ (disk (snd (sgenerate (E := Demo.env) Demo.world_no_out)))
       (_output_directory (obj Demo.world_no_out)) = false
  /\ (exists_ (disk Demo.world_no_out) (_source (obj Demo.world_no_out)) = true ->
      is_dir (disk Demo.world_no_out)
        (parent (_output_directory (obj Demo.world_no_out))) = true ->
      fst (sgenerate (E := Demo.env) Demo.world_no_out)
      = Raise (FaviconNotFoundError (_output_directory (obj Demo.world_no_out)))
      /\ disk (snd (sgenerate (E := Demo.env) Demo.world_no_out))
         = disk Demo.world_no_out).
Proof.
  apply (missing_output_directory_is_never_made (E := Demo.env) 7
           Demo.world_no_out).
  - reflexivity.
  - vm_compute. reflexivity.
Defined.

(** ** The two entry points, side by side *)

Section EntryPointFacts.

Context `{E : Env}.

Lemma run_all_cons (c : M unit) (cs : list (M unit)) (w : World) :
  run_all (c :: cs) w
  = (fst (c w) :: fst (run_all cs (snd (c w))),
     snd (run_all cs (snd (c w)))).
Proof.
  simpl. destruct (c w) as [r w1]. cbn [fst snd].
  destruct (run_all cs w1) as [rs w2]. reflexivity.
Qed.

(** What the sequential loop returns is the first exception among the
    outcomes of all the renders, run in order. *)
Lemma for_each_first_failure (fmts : list FaviconProperties) :
  forall w : World,
    fst (for_each fmts w)
    = first_failure (fst (run_all (map _agenerate_single fmts) w)).
Proof.
  induction fmts as [|fp rest IH]; intros w; [reflexivity|].
  cbn [map for_each]. rewrite run_all_cons.
  change (_agenerate_single fp) with (_generate_single fp). unfold bind.
  cbn [fst]. destruct (_generate_single fp w) as [[[]|e] w1]; cbn [fst snd].
  - apply IH.
  - reflexivity.
Qed.

(** Running all the renders is running the sequential loop and then the
    renders it did not get to. *)
Lemma run_all_after_for_each (fmts : list FaviconProperties) :
  forall w : World,
    exists rest : list FaviconProperties,
      snd (run_all (map _agenerate_single fmts) w)
      = snd (run_all (map _agenerate_single rest) (snd (for_each fmts w)))
      /\ (is_ok (fst (for_each fmts w)) = true -> rest = []).
Proof.
  induction fmts as [|fp rest IH]; intros w.
  - exists []. split; reflexivity.
  - cbn [map for_each]. rewrite run_all_cons.
    change (_agenerate_single fp) with (_generate_single fp). unfold bind.
    cbn [snd]. destruct (_generate_single fp w) as [[[]|e] w1]; cbn [fst snd].
    + apply IH.
    + exists rest. split; [reflexivity|discriminate].
Qed.

(** X20: [agenerate] returns or raises exactly what [sgenerate] does on the same
    instance and disk: the exception of the first render that fails, in
    catalog order, or that of the validation.  What differs is how far they
    got: [agenerate] ends where [sgenerate] ends and then runs the renders
    [sgenerate] did not get to, so it has entered every render [sgenerate]
    has, counts at least as many, and leaves every file [sgenerate] leaves;
    when they do not raise they end in the same state. *)
Theorem entry_points_raise_the_same (fuel : nat) (w : World) :
  (2 * List.length (_formats (obj w)) + 1 <= fuel)%nat ->
  exists (w' : World) (rest : list FaviconProperties),
    agenerate fuel w = Some (fst (sgenerate w), w')
    /\ attempts w' = (attempts (snd (sgenerate w)) ++ rest)%list
    /\ completed (obj (snd (sgenerate w))) <= completed (obj w')
    /\ keeps_files (disk (snd (sgenerate w))) (disk w')
    /\ (is_ok (fst (sgenerate w)) = true -> w' = snd (sgenerate w)).
Proof.
  intros Hfuel. rewrite sgenerate_unfold, agenerate_settles by exact Hfuel.
  destruct (ensure_validated w) as [[[]|e] w1]; cbn [fst snd].
  - destruct (run_all_after_for_each (_formats (obj w1)) w1)
      as (rest & Hrun & Hnil).
    rewrite <- for_each_first_failure. rewrite Hrun.
    destruct (run_all_summary rest (snd (for_each (_formats (obj w1)) w1)))
      as (_ & Hc & Hpos & Hl & Hk & _).
    eexists _, rest. split; [reflexivity|]. splits.
    + exact Hl.
    + rewrite Hc. lia.
    + exact Hk.
    + intros Hok. rewrite (Hnil Hok). reflexivity.
  - exists w1, []. rewrite app_nil_r.
    splits; [reflexivity|reflexivity|lia|apply keeps_files_refl|reflexivity].
Qed.

End EntryPointFacts.

Lemma entry_points_raise_the_same_witness :
  exists (w' : World (E := Demo.env))
         (rest : list (FaviconProperties (Env := Demo.env))),
    agenerate 7 Demo.world_blocked
    = Some (fst (sgenerate (E := Demo.env) Demo.world_blocked), w')
    /\ attempts w'
       = (attempts (snd (sgenerate (E := Demo.env) Demo.world_blocked))
            ++ rest)%list
    /\ completed (obj (snd (sgenerate (E := Demo.env) Demo.world_blocked)))
       <= completed (obj w')
    /\ keeps_files
         (disk (snd (sgenerate (E := Demo.env) Demo.world_blocked))) (disk w')
    /\ (is_ok (fst (sgenerate (E := Demo.env) Demo.world_blocked)) = true ->
        w' = snd (sgenerate (E := Demo.env) Demo.world_blocked)).
Proof.
  apply (entry_points_raise_the_same (E := Demo.env) 7 Demo.world_blocked).
  vm_compute. lia.
Defined.
